(** * Polkamarkets proof-of-concept CLI (src/index.ts): shallow embedding

    The tool parses a command line, binds two contracts through ethers,
    and runs one of [buy], [sell], [claimWinnings] against a JSON-RPC
    node.  The embedding keeps the control flow of [src/index.ts]:
    promises become computations in a state-and-exception monad over
    the node and the console, [process.exit] is an outcome of its own
    that no [catch] intercepts, and every request sent to the node is
    recorded together with its answer. *)

From Stdlib Require Import ZArith List String Ascii Bool Lia QArith Qround.
Import ListNotations.
Local Open Scope string_scope.
Local Open Scope Z_scope.

(* ================================================================== *)
(** * Part 1.  Values of the runtime: strings, bigints, numbers        *)
(* ================================================================== *)

Module Js.

(** A settled promise, or the result of an expression that may throw:
    the value, or the [message] of the [Error] that was thrown. *)
Inductive result (A : Type) : Type :=
| Ok (a : A)
| Err (message : string).
Arguments Ok {A} a.
Arguments Err {A} message.

Definition chars := list ascii.

Definition code (c : ascii) : Z := Z.of_nat (nat_of_ascii c).

Definition is_digit (c : ascii) : bool := (48 <=? code c) && (code c <=? 57).

Definition digit_value (c : ascii) : Z := code c - 48.

Definition digit_char (d : Z) : ascii := ascii_of_nat (Z.to_nat (48 + d)).

(** Value of a digit string in base ten, most significant digit first. *)
Fixpoint digits_value (acc : Z) (s : chars) : Z :=
  match s with
  | [] => acc
  | c :: s' => digits_value (acc * 10 + digit_value c) s'
  end.

(** [n.toString()] for a non-negative bigint [n]: the digits are produced
    from the least significant one. *)
Fixpoint digits_loop (fuel : nat) (n : Z) (acc : chars) : chars :=
  match fuel with
  | O => acc
  | S fuel' =>
      let acc' := digit_char (n mod 10) :: acc in
      if n / 10 =? 0 then acc' else digits_loop fuel' (n / 10) acc'
  end.

Definition nat_digits (n : Z) : chars :=
  digits_loop (S (Z.to_nat (Z.log2 n))) n [].

(** [BigInt.prototype.toString()] and [Number.prototype.toString()] on
    integers. *)
Definition bigint_chars (v : Z) : chars :=
  if v <? 0 then "-"%char :: nat_digits (- v) else nat_digits v.

Definition toString (v : Z) : string := string_of_list_ascii (bigint_chars v).

(** White space and line terminators of the ASCII range, which
    [BigInt(string)] strips from both ends. *)
Definition is_space (c : ascii) : bool :=
  let k := code c in
  (k =? 9) || (k =? 10) || (k =? 11) || (k =? 12) || (k =? 13) || (k =? 32).

Fixpoint trim_start (s : chars) : chars :=
  match s with
  | c :: s' => if is_space c then trim_start s' else s
  | [] => []
  end.

Definition trim (s : chars) : chars := rev (trim_start (rev (trim_start s))).

Definition radix_digit (c : ascii) : option Z :=
  let k := code c in
  if (48 <=? k) && (k <=? 57) then Some (k - 48)
  else if (97 <=? k) && (k <=? 102) then Some (k - 87)
  else if (65 <=? k) && (k <=? 70) then Some (k - 55)
  else None.

Fixpoint radix_value (radix acc : Z) (s : chars) : option Z :=
  match s with
  | [] => Some acc
  | c :: s' =>
      match radix_digit c with
      | Some d => if d <? radix then radix_value radix (acc * radix + d) s' else None
      | None => None
      end
  end.

Definition nonempty_radix (radix : Z) (s : chars) : option Z :=
  match s with
  | [] => None
  | _ => radix_value radix 0 s
  end.

Definition decimal_literal (s : chars) : option Z :=
  match s with
  | [] => None
  | _ => if forallb is_digit s then Some (digits_value 0 s) else None
  end.

Definition radix_of_prefix (c : ascii) : option Z :=
  if (c =? "x")%char || (c =? "X")%char then Some 16
  else if (c =? "o")%char || (c =? "O")%char then Some 8
  else if (c =? "b")%char || (c =? "B")%char then Some 2
  else None.

(** StringToBigInt: an empty (or blank) string is [0n]; otherwise a
    signed decimal literal, or an unsigned literal with prefix [0x], [0o]
    or [0b]. *)
Definition string_to_bigint (s : chars) : option Z :=
  match trim s with
  | [] => Some 0
  | c :: ds =>
      if (c =? "-")%char then option_map Z.opp (decimal_literal ds)
      else if (c =? "+")%char then decimal_literal ds
      else
        match ds with
        | p :: ds' =>
            match (if (c =? "0")%char then radix_of_prefix p else None) with
            | Some radix => nonempty_radix radix ds'
            | None => decimal_literal (c :: ds)
            end
        | [] => decimal_literal (c :: ds)
        end
  end.

(** [BigInt(value)] on a string: the integer, or a [SyntaxError]. *)
Definition BigInt (value : string) : result Z :=
  match string_to_bigint (list_ascii_of_string value) with
  | Some v => Ok v
  | None => Err ("Cannot convert " ++ value ++ " to a BigInt")
  end.

End Js.

Import Js.

(* ================================================================== *)
(** * Part 2.  The two ethers conversions behind the token formatters  *)
(* ================================================================== *)

(** The repository calls [ethers.formatUnits] and [ethers.parseUnits]
    and contains neither: both are library code.  This module models
    them from section 4.4 of the specification (two pure conversions
    between a smallest-unit integer and a human decimal string,
    parameterised by the decimal count, total except for malformed
    numeric strings) and from the example output of the README, which
    shows [0.0], [9.5] and [10.0] for amounts of a six-decimal token. *)
Module Ethers.

Local Open Scope list_scope.

(** Modelled from the spec: the padding unit of the two conversions,
    which are missing from the sources. *)
Definition Zeros : chars := ["0"; "0"; "0"; "0"]%char.

(** Modelled from the spec: left padding of [ethers.formatUnits], so
    that the digit string has a whole digit before the fraction:
    [while (str.length <= decimals) { str = Zeros + str; }] *)
Fixpoint pad_start (fuel decimals : nat) (str : chars) : chars :=
  match fuel with
  | O => str
  | S fuel' =>
      if (List.length str <=? decimals)%nat
      then pad_start fuel' decimals (Zeros ++ str)
      else str
  end.

(** Modelled from the spec: right padding of the fraction in
    [ethers.parseUnits], up to the decimal count:
    [while (decimal.length < decimals) { decimal += Zeros; }] *)
Fixpoint pad_end (fuel decimals : nat) (decimal : chars) : chars :=
  match fuel with
  | O => decimal
  | S fuel' =>
      if (List.length decimal <? decimals)%nat
      then pad_end fuel' decimals (decimal ++ Zeros)
      else decimal
  end.

(** Modelled from the spec: trimming of superfluous zeros in
    [ethers.formatUnits], which keeps one digit next to the point:
    [while (str[0] === "0" && str[1] !== ".") { str = str.substring(1); }]
    ([str[1]] of a one-character string is [undefined], which differs
    from ["."]).  The fraction is trimmed from its end by the same loop
    on the reversed string. *)
Fixpoint trim_zeros (str : chars) : chars :=
  match str with
  | [] => []
  | c0 :: rest =>
      let dot_next := match rest with c1 :: _ => (c1 =? ".")%char | [] => false end in
      if (c0 =? "0")%char && negb dot_next then trim_zeros rest else str
  end.

(** Modelled from the spec: [ethers.formatUnits] is library code that the
    repository calls but does not contain.  Section 4.4 gives it as the
    total conversion from a smallest-unit integer to a human decimal
    string for a decimal count; the example output of the README
    ([0.0], [9.5], [10.0]) fixes the shape: sign, whole part without
    superfluous zeros, and for a positive decimal count a point and the
    fraction without trailing zeros, one digit at least on each side. *)
Definition format_chars (value : Z) (decimals : nat) : chars :=
  let negative := if value <? 0 then ["-"%char] else [] in
  let str := nat_digits (Z.abs value) in
  if (decimals =? 0)%nat then negative ++ str
  else
    let str := pad_start (S decimals) decimals str in
    let index := (List.length str - decimals)%nat in
    let str := firstn index str ++ "."%char :: skipn index str in
    let str := trim_zeros str in
    let str := rev (trim_zeros (rev str)) in
    negative ++ str.

(** Modelled from the spec: [ethers.formatUnits(value, decimals)] on
    strings; the unit name [gwei] stands for nine decimals. *)
Definition formatUnits (value : Z) (decimals : Z) : string :=
  string_of_list_ascii (format_chars value (Z.to_nat decimals)).

(** Modelled from the spec: the longest prefix of [s] whose characters
    satisfy [p], and the rest; a digit group of [ethers.parseUnits]. *)
Fixpoint span (p : ascii -> bool) (s : chars) : chars * chars :=
  match s with
  | c :: s' => if p c then let (a, b) := span p s' in (c :: a, b) else ([], s)
  | [] => ([], [])
  end.

(** Modelled from the spec: an optional leading character, the sign or
    the point of [ethers.parseUnits]. *)
Definition strip (c : ascii) (s : chars) : chars * chars :=
  match s with
  | c0 :: s' => if (c0 =? c)%char then ([c], s') else ([], s)
  | [] => ([], [])
  end.

(** Modelled from the spec: [ethers.parseUnits] is library code that the
    repository calls but does not contain.  Section 4.4 gives it as the
    conversion from a human decimal string to a smallest-unit integer,
    total but for malformed numeric strings, which are an error for the
    caller.  The string is read as sign, whole digits, optional point and
    fraction digits; the fraction is extended with zeros to the decimal
    count and may not carry non-zero digits beyond it. *)
Definition parse_chars (value : chars) (decimals : nat) : result Z :=
  let (sign, s1) := strip "-" value in
  let (whole, s2) := span is_digit s1 in
  let (_, s3) := strip "." s2 in
  let (decimal, s4) := span is_digit s3 in
  match s4 with
  | _ :: _ => Err "invalid FixedNumber string value"
  | [] =>
      if (List.length whole + List.length decimal =? 0)%nat
      then Err "invalid FixedNumber string value"
      else
        let whole := match whole with [] => ["0"%char] | _ => whole end in
        let decimal := pad_end (S decimals) decimals decimal in
        if forallb (fun c => (c =? "0")%char) (skipn decimals decimal)
        then
          let decimal := firstn decimals decimal in
          match string_to_bigint (sign ++ whole ++ decimal) with
          | Some v => Ok v
          | None => Err "invalid FixedNumber string value"
          end
        else Err "too many decimals for format"
  end.

(** Modelled from the spec: [ethers.parseUnits(value, decimals)] on
    strings. *)
Definition parseUnits (value : string) (decimals : Z) : result Z :=
  parse_chars (list_ascii_of_string value) (Z.to_nat decimals).

End Ethers.

(** ** The formatters of [src/index.ts] *)

(** [formatTokenAmount(amount, decimals)] *)
Definition formatTokenAmount (amount : Z) (decimals : Z) : string :=
  Ethers.formatUnits amount decimals.

(** [parseTokenAmount(amount, decimals)] *)
Definition parseTokenAmount (amount : string) (decimals : Z) : result Z :=
  Ethers.parseUnits amount decimals.


(* ================================================================== *)
(** * Part 3.  The node, the process and the monad of the tool         *)
(* ================================================================== *)

Module Rpc.

(** An argument of a contract method as the tool hands it to ethers:
    command-line text, or a bigint. *)
Inductive arg : Type :=
| Text (s : string)
| Num (v : Z).

(** A contract call that is estimated or submitted: the signer the
    contract is bound to, the contract, the method and its arguments in
    the order of the call. *)
Record call : Type := Call {
  sender : string;
  target : string;
  method : string;
  args : list arg
}.

(** The overrides object of a submission. *)
Record overrides : Type := Overrides {
  gasLimit : Z;
  gasPrice : option Z
}.

Record response : Type := Response { hash : string }.

Record receipt : Type := Receipt { blockNumber : Z; gasUsed : Z }.

(** What the node answers.  Reads, gas estimation and fee data leave
    the ledger as it is; a submission and the wait for its inclusion
    move it on. *)
Record api (node : Type) : Type := Api {
  getBalance : node -> string -> result Z;
  decimals : node -> string -> result Z;
  symbol : node -> string -> result string;
  name : node -> string -> result string;
  allowance : node -> string -> string -> string -> result Z;
  balanceOf : node -> string -> string -> result Z;
  getUserMarketShares : node -> string -> string -> string -> result (Z * list Z);
  estimateGas : node -> call -> result Z;
  getFeeData : node -> result (option Z);
  send : node -> call -> overrides -> result response * node;
  wait : node -> response -> result receipt * node
}.

Arguments getBalance {node}.
Arguments decimals {node}.
Arguments symbol {node}.
Arguments name {node}.
Arguments allowance {node}.
Arguments balanceOf {node}.
Arguments getUserMarketShares {node}.
Arguments estimateGas {node}.
Arguments getFeeData {node}.
Arguments send {node}.
Arguments wait {node}.

End Rpc.

(** The [abi] array of an ABI document; its entries stay opaque. *)
Definition Abi : Type := list string.

(** The process and the parts of ethers that do not talk to the node.
    [readJson path] is [JSON.parse(fs.readFileSync(path, 'utf8')).abi],
    which is [undefined] when the document has no such field. *)
Record system : Type := System {
  env : string -> option string;
  readJson : string -> result (option Abi);
  newProvider : string -> result unit;
  newWallet : string -> result string;
  newContract : string -> option Abi -> result unit
}.

(** Everything observable of a run, in the order it happens. *)
Inductive event : Type :=
| Stdout (text : string)
| Stderr (text : string)
| ReadFile (path : string)
| NewProvider (rpcUrl : string)
| NewContract (address : string)
| GetBalance (address : string)
| Read (target method : string) (args : list Rpc.arg)
| EstimateGas (c : Rpc.call) (answer : result Z)
| GetFeeData (answer : result (option Z))
| Send (c : Rpc.call) (o : Rpc.overrides) (answer : result Rpc.response)
| Wait (tx : Rpc.response) (answer : result Rpc.receipt).

Record world (node : Type) : Type := World {
  chain : node;
  trace : list event
}.
Arguments World {node}.
Arguments chain {node}.
Arguments trace {node}.

(** How a computation ends: with a value, with a thrown [Error], or by
    [process.exit(code)]. *)
Inductive outcome (A : Type) : Type :=
| Return (a : A)
| Throw (message : string)
| Exit (code : Z).
Arguments Return {A} a.
Arguments Throw {A} message.
Arguments Exit {A} code.

Definition M (node A : Type) : Type := world node -> outcome A * world node.

Section Monad.

Context {node : Type}.

Definition ret {A} (a : A) : M node A := fun w => (Return a, w).

Definition bind {A B} (m : M node A) (k : A -> M node B) : M node B :=
  fun w =>
    match m w with
    | (Return a, w') => k a w'
    | (Throw message, w') => (Throw message, w')
    | (Exit code, w') => (Exit code, w')
    end.

Definition throw {A} (message : string) : M node A := fun w => (Throw message, w).

(** [process.exit(code)]: nothing after it runs, no handler sees it. *)
Definition exit {A} (code : Z) : M node A := fun w => (Exit code, w).

(** [try { body } catch (error) { handler(error.message) }] *)
Definition try_catch {A} (body : M node A) (handler : string -> M node A) : M node A :=
  fun w =>
    match body w with
    | (Throw message, w') => handler message w'
    | r => r
    end.

Definition emit (e : event) (w : world node) : world node :=
  World (chain w) (trace w ++ [e])%list.

Definition log (text : string) : M node unit := fun w => (Return tt, emit (Stdout text) w).

Definition error (text : string) : M node unit := fun w => (Return tt, emit (Stderr text) w).

(** [await] of a settled promise. *)
Definition await {A} (r : result A) : M node A :=
  match r with
  | Ok a => ret a
  | Err message => throw message
  end.

(** A request that does not change the ledger: it is recorded and
    answered from the current state. *)
Definition ask {A} (e : event) (answer : node -> result A) : M node (result A) :=
  fun w => (Return (answer (chain w)), emit e w).

(** A local operation of the process or of ethers. *)
Definition perform {A} (e : event) (r : result A) : M node A :=
  fun w => match r with
           | Ok a => (Return a, emit e w)
           | Err message => (Throw message, emit e w)
           end.

End Monad.

Declare Scope tool_scope.
Delimit Scope tool_scope with tool.
Notation "x <- m ;; k" := (bind m (fun x => k))
  (at level 61, m at next level, right associativity) : tool_scope.
Notation "m ;; k" := (bind m (fun _ => k))
  (at level 61, right associativity) : tool_scope.
Local Open Scope tool_scope.

(** The exit status of the process when the program ends this way; an
    error nobody caught ends the process with status 1. *)
Definition exit_code {A} (o : outcome A) : Z :=
  match o with
  | Return _ => 0
  | Throw _ => 1
  | Exit code => code
  end.

(* ================================================================== *)
(** * Part 4.  src/index.ts                                            *)
(* ================================================================== *)

Definition nl : string := String "010"%char EmptyString.
Definition dq : string := String "034"%char EmptyString.

(** [x || d] on a possibly missing string: [undefined] and the empty
    string are falsy. *)
Definition or_else (x : option string) (d : string) : string :=
  match x with
  | Some s => if (s =? "")%string then d else s
  | None => d
  end.

Definition truthy (x : option string) : bool :=
  match x with
  | Some s => negb (s =? "")%string
  | None => false
  end.

(** The module-level configuration constants. *)
Record config : Type := Config {
  RPC_URL : string;
  CONTRACT_ADDRESS : string;
  ERC20_TOKEN_ADDRESS : string
}.

Record ParsedArguments : Type := mkParsedArguments {
  action : string;
  privateKey : string;
  marketId : option string;
  outcomeId : option string;
  value : option string;
  minShares : option string;
  maxShares : option string
}.

Record Wallet : Type := mkWallet { address : string }.

Record EthersSetup : Type := mkEthersSetup {
  provider : string;
  signer : Wallet
}.

(** A contract proxy: its address and the signer it is bound to. *)
Record Contract : Type := mkContract {
  contractAddress : string;
  runner : Wallet
}.

Record UserShares : Type := mkUserShares {
  liquidity : Z;
  shares : list Z
}.

Record TokenInfo : Type := mkTokenInfo {
  decimals : Z;
  symbol : string;
  name : string
}.

(** [ethers.MaxUint256] *)
Definition MaxUint256 : Z := 2 ^ 256 - 1.

(** The non-null assertion [x!] on a field of the parsed arguments. *)
Definition the (x : option string) : string :=
  match x with
  | Some s => s
  | None => "undefined"
  end.

Definition usage : string :=
"
Usage: yarn dev <action> <privateKey>

Required Environment Variables:
  RPC_URL              RPC endpoint (e.g. https://polygon-rpc.com)
  CONTRACT_ADDRESS     Smart contract address
  ERC20_TOKEN_ADDRESS  ERC20 token address (for payments)

Actions:
  buy <marketId> <outcomeId> <value> [minShares]
  sell <marketId> <outcomeId> <value> [maxShares]
  claimWinnings <marketId>

Examples:
  yarn dev buy 0x1234... 1 0 1000000000000000000
  yarn dev sell 0x1234... 1 0 500000000000000000
  yarn dev claimWinnings 0x1234... 1
    ".

(** The gas limit of a submission: [gasEstimate * BigInt(120) / BigInt(100)];
    bigint division truncates. *)
Definition bufferedGas (gasEstimate : Z) : Z := Z.quot (gasEstimate * 120) 100.

(** [ethers.formatUnits(gasPrice.gasPrice || 0, 'gwei')] *)
Definition formatGwei (gasPrice : option Z) : string :=
  Ethers.formatUnits (match gasPrice with Some p => p | None => 0 end) 9.

(** [ethers.formatEther(balance)] *)
Definition formatEther (balance : Z) : string := Ethers.formatUnits balance 18.

Section Tool.

Context {node : Type}.
Variable rpc : Rpc.api node.
Variable sys : system.

(** [process.env.NAME || (() => { ...; process.exit(1); })()] *)
Definition required (name example : string) : M node string :=
  match env sys name with
  | Some s =>
      if (s =? "")%string
      then error ("❌ Error: " ++ name ++ " environment variable is required") ;;
           error ("Set it with: export " ++ name ++ "=" ++ dq ++ example ++ dq) ;;
           exit 1
      else ret s
  | None =>
      error ("❌ Error: " ++ name ++ " environment variable is required") ;;
      error ("Set it with: export " ++ name ++ "=" ++ dq ++ example ++ dq) ;;
      exit 1
  end.

(** The three configuration constants, resolved when the module loads. *)
Definition configuration : M node config :=
  rpcUrl <- required "RPC_URL" "https://your-rpc-endpoint.com" ;;
  contractAddress <- required "CONTRACT_ADDRESS" "0xYourContractAddress..." ;;
  tokenAddress <- required "ERC20_TOKEN_ADDRESS" "0xYourTokenAddress..." ;;
  ret (Config rpcUrl contractAddress tokenAddress).

Definition readABI : M node (option Abi) :=
  try_catch
    (perform (ReadFile "../contracts/PredictionMarketV3_4.json")
             (readJson sys "../contracts/PredictionMarketV3_4.json"))
    (fun message => error ("Error reading ABI file: " ++ message) ;; exit 1).

Definition readERC20ABI : M node (option Abi) :=
  try_catch
    (perform (ReadFile "../contracts/ERC20.json")
             (readJson sys "../contracts/ERC20.json"))
    (fun message => error ("Error reading ERC20 ABI file: " ++ message) ;; exit 1).

(** [args] is [process.argv.slice(2)]. *)
Definition parseArguments (argv : list string) : M node ParsedArguments :=
  let args := skipn 2 argv in
  match args with
  | action :: privateKey :: _ =>
      let parsedArgs := mkParsedArguments action privateKey None None None None None in
      if (action =? "buy")%string then
        if (List.length args <? 5)%nat then
          error "Buy action requires: marketId, outcomeId, value, and optionally minShares" ;;
          exit 1
        else
          ret (mkParsedArguments action privateKey
                 (nth_error args 2) (nth_error args 3) (nth_error args 4)
                 (Some (or_else (nth_error args 5) "0")) None)
      else if (action =? "sell")%string then
        if (List.length args <? 5)%nat then
          error "Sell action requires: marketId, outcomeId, value, and optionally maxShares" ;;
          exit 1
        else
          ret (mkParsedArguments action privateKey
                 (nth_error args 2) (nth_error args 3) (nth_error args 4)
                 None (Some (or_else (nth_error args 5) (toString MaxUint256))))
      else if (action =? "claimWinnings")%string then
        if (List.length args <? 3)%nat then
          error "ClaimWinnings action requires: marketId" ;;
          exit 1
        else
          ret (mkParsedArguments action privateKey (nth_error args 2) None None None None)
      else
        error ("Unknown action: " ++ action) ;;
        error "Valid actions: buy, sell, claimWinnings" ;;
        exit 1
  | _ =>
      (* args.length < 2 *)
      log usage ;;
      exit 1
  end.

Definition setupEthers (privateKey rpcUrl : string) : M node EthersSetup :=
  try_catch
    (perform (NewProvider rpcUrl) (newProvider sys rpcUrl) ;;
     signerAddress <- await (newWallet sys privateKey) ;;
     log ("Connected to: " ++ rpcUrl) ;;
     log ("Wallet address: " ++ signerAddress) ;;
     pending <- ask (GetBalance signerAddress)
                    (fun n => Rpc.getBalance rpc n signerAddress) ;;
     balance <- await pending ;;
     log ("Wallet balance: " ++ formatEther balance ++ " ETH" ++ nl) ;;
     ret (mkEthersSetup rpcUrl (mkWallet signerAddress)))
    (fun message => error ("Error setting up ethers: " ++ message) ;; exit 1).

Definition createContract (contractAddress : string) (abi : option Abi) (signer : Wallet)
  : M node Contract :=
  try_catch
    (perform (NewContract contractAddress) (newContract sys contractAddress abi) ;;
     ret (mkContract contractAddress signer))
    (fun message => error ("Error creating contract instance: " ++ message) ;; exit 1).

(** The three reads are started one after the other and then joined;
    when several fail, the failure of the first in this order is the
    one reported here. *)
Definition getTokenInfo (tokenContract : Contract) : M node TokenInfo :=
  let token := contractAddress tokenContract in
  try_catch
    (p1 <- ask (Read token "decimals" []) (fun n => Rpc.decimals rpc n token) ;;
     p2 <- ask (Read token "symbol" []) (fun n => Rpc.symbol rpc n token) ;;
     p3 <- ask (Read token "name" []) (fun n => Rpc.name rpc n token) ;;
     decimals <- await p1 ;;
     symbol <- await p2 ;;
     name <- await p3 ;;
     ret (mkTokenInfo decimals symbol name))
    (fun message => error ("Error getting token info: " ++ message) ;; throw message).

(** [contract.method.estimateGas(...args)] *)
Definition estimate (c : Rpc.call) : M node Z :=
  fun w =>
    let answer := Rpc.estimateGas rpc (chain w) c in
    await answer (emit (EstimateGas c answer) w).

(** [provider.getFeeData()], of which the tool uses the [gasPrice]. *)
Definition getFeeData : M node (option Z) :=
  fun w =>
    let answer := Rpc.getFeeData rpc (chain w) in
    await answer (emit (GetFeeData answer) w).

(** [contract.method(...args, overrides)]: the submission. *)
Definition submit (c : Rpc.call) (o : Rpc.overrides) : M node Rpc.response :=
  fun w =>
    let (answer, chain') := Rpc.send rpc (chain w) c o in
    await answer (World chain' (trace w ++ [Send c o answer])%list).

(** [tx.wait()] *)
Definition wait (tx : Rpc.response) : M node Rpc.receipt :=
  fun w =>
    let (answer, chain') := Rpc.wait rpc (chain w) tx in
    await answer (World chain' (trace w ++ [Wait tx answer])%list).

Definition callOf (c : Contract) (method : string) (args : list Rpc.arg) : Rpc.call :=
  Rpc.Call (address (runner c)) (contractAddress c) method args.

Definition checkAndApprove (tokenContract : Contract) (spenderAddress : string)
    (amount : Z) (userAddress : string) (tokenInfo : TokenInfo) : M node unit :=
  let token := contractAddress tokenContract in
  try_catch
    (log ("Checking " ++ symbol tokenInfo ++ " allowance...") ;;
     pending <- ask (Read token "allowance" [Rpc.Text userAddress; Rpc.Text spenderAddress])
                    (fun n => Rpc.allowance rpc n token userAddress spenderAddress) ;;
     currentAllowance <- await pending ;;
     log ("Current allowance: " ++ formatTokenAmount currentAllowance (decimals tokenInfo)
            ++ " " ++ symbol tokenInfo) ;;
     log ("Required amount: " ++ formatTokenAmount amount (decimals tokenInfo)
            ++ " " ++ symbol tokenInfo) ;;
     if currentAllowance <? amount then
       log (nl ++ "Insufficient allowance. Approving "
               ++ formatTokenAmount amount (decimals tokenInfo)
               ++ " " ++ symbol tokenInfo ++ "...") ;;
       let approve := callOf tokenContract "approve" [Rpc.Text spenderAddress; Rpc.Num amount] in
       gasEstimate <- estimate approve ;;
       gasPrice <- getFeeData ;;
       log ("Approval gas estimate: " ++ toString gasEstimate) ;;
       log ("Gas price: " ++ formatGwei gasPrice ++ " gwei") ;;
       approveTx <- submit approve (Rpc.Overrides (bufferedGas gasEstimate) gasPrice) ;;
       log ("Approval transaction sent: " ++ Rpc.hash approveTx) ;;
       approveReceipt <- wait approveTx ;;
       log ("Approval confirmed in block: " ++ toString (Rpc.blockNumber approveReceipt)) ;;
       log ("✅ Approval successful!" ++ nl)
     else
       log ("✅ Sufficient allowance already exists." ++ nl))
    (fun message => error ("Error checking/approving allowance: " ++ message) ;; throw message).

Definition executeBuy (cfg : config) (contract tokenContract : Contract) (tokenInfo : TokenInfo)
    (marketId outcomeId value minShares userAddress : string) : M node Rpc.receipt :=
  let token := contractAddress tokenContract in
  try_catch
    (log "Executing buy:" ;;
     log ("  Market ID: " ++ marketId) ;;
     log ("  Outcome ID: " ++ outcomeId) ;;
     amount <- await (BigInt value) ;;
     log ("  Value: " ++ formatTokenAmount amount (decimals tokenInfo) ++ " " ++ symbol tokenInfo) ;;
     log ("  Min Shares: " ++ minShares ++ nl) ;;
     pending <- ask (Read token "balanceOf" [Rpc.Text userAddress])
                    (fun n => Rpc.balanceOf rpc n token userAddress) ;;
     balance <- await pending ;;
     log (symbol tokenInfo ++ " balance: " ++ formatTokenAmount balance (decimals tokenInfo)
            ++ " " ++ symbol tokenInfo) ;;
     amount <- await (BigInt value) ;;
     (if balance <? amount then
        required <- await (BigInt value) ;;
        throw ("Insufficient " ++ symbol tokenInfo ++ " balance. Required: "
                 ++ formatTokenAmount required (decimals tokenInfo)
                 ++ ", Available: " ++ formatTokenAmount balance (decimals tokenInfo))
      else ret tt) ;;
     amount <- await (BigInt value) ;;
     checkAndApprove tokenContract (CONTRACT_ADDRESS cfg) amount userAddress tokenInfo ;;
     let buy := callOf contract "buy"
                  [Rpc.Text marketId; Rpc.Text outcomeId; Rpc.Text minShares; Rpc.Text value] in
     gasEstimate <- estimate buy ;;
     gasPrice <- getFeeData ;;
     log ("Estimated gas: " ++ toString gasEstimate) ;;
     log ("Gas price: " ++ formatGwei gasPrice ++ " gwei") ;;
     tx <- submit buy (Rpc.Overrides (bufferedGas gasEstimate) gasPrice) ;;
     log ("Transaction sent: " ++ Rpc.hash tx) ;;
     receipt <- wait tx ;;
     log ("Transaction confirmed in block: " ++ toString (Rpc.blockNumber receipt)) ;;
     log ("Gas used: " ++ toString (Rpc.gasUsed receipt)) ;;
     ret receipt)
    (fun message => error ("Error executing buy: " ++ message) ;; throw message).

Definition executeSell (contract : Contract) (tokenInfo : TokenInfo)
    (marketId outcomeId value maxShares : string) : M node Rpc.receipt :=
  try_catch
    (log "Executing sell:" ;;
     log ("  Market ID: " ++ marketId) ;;
     log ("  Outcome ID: " ++ outcomeId) ;;
     amount <- await (BigInt value) ;;
     log ("  Value: " ++ formatTokenAmount amount (decimals tokenInfo) ++ " " ++ symbol tokenInfo) ;;
     log ("  Max Shares: " ++ maxShares ++ nl) ;;
     let sell := callOf contract "sell"
                   [Rpc.Text marketId; Rpc.Text outcomeId; Rpc.Text value; Rpc.Text maxShares] in
     gasEstimate <- estimate sell ;;
     gasPrice <- getFeeData ;;
     log ("Estimated gas: " ++ toString gasEstimate) ;;
     log ("Gas price: " ++ formatGwei gasPrice ++ " gwei") ;;
     tx <- submit sell (Rpc.Overrides (bufferedGas gasEstimate) gasPrice) ;;
     log ("Transaction sent: " ++ Rpc.hash tx) ;;
     receipt <- wait tx ;;
     log ("Transaction confirmed in block: " ++ toString (Rpc.blockNumber receipt)) ;;
     log ("Gas used: " ++ toString (Rpc.gasUsed receipt)) ;;
     ret receipt)
    (fun message => error ("Error executing sell: " ++ message) ;; throw message).

Definition executeClaimWinnings (contract : Contract) (marketId : string) : M node Rpc.receipt :=
  try_catch
    (log "Executing claimWinnings:" ;;
     log ("  Market ID: " ++ marketId ++ nl) ;;
     let claimWinnings := callOf contract "claimWinnings" [Rpc.Text marketId] in
     gasEstimate <- estimate claimWinnings ;;
     gasPrice <- getFeeData ;;
     log ("Estimated gas: " ++ toString gasEstimate) ;;
     log ("Gas price: " ++ formatGwei gasPrice ++ " gwei") ;;
     tx <- submit claimWinnings (Rpc.Overrides (bufferedGas gasEstimate) gasPrice) ;;
     log ("Transaction sent: " ++ Rpc.hash tx) ;;
     receipt <- wait tx ;;
     log ("Transaction confirmed in block: " ++ toString (Rpc.blockNumber receipt)) ;;
     log ("Gas used: " ++ toString (Rpc.gasUsed receipt)) ;;
     ret receipt)
    (fun message => error ("Error executing claimWinnings: " ++ message) ;; throw message).

(** [null] is [None]. *)
Definition getUserShares (contract : Contract) (tokenInfo : TokenInfo)
    (marketId userAddress : string) : M node (option UserShares) :=
  try_catch
    (pending <- ask (Read (contractAddress contract) "getUserMarketShares"
                          [Rpc.Text marketId; Rpc.Text userAddress])
                    (fun n => Rpc.getUserMarketShares rpc n (contractAddress contract)
                                marketId userAddress) ;;
     position <- await pending ;;
     let (liquidity, shares) := position in
     log ("User shares for market " ++ marketId ++ ":") ;;
     log ("  Liquidity: " ++ formatTokenAmount liquidity (decimals tokenInfo)
            ++ " " ++ symbol tokenInfo) ;;
     log ("  Outcome shares: "
            ++ String.concat ", " (map (fun s => formatTokenAmount s (decimals tokenInfo)) shares)) ;;
     ret (Some (mkUserShares liquidity shares)))
    (fun message => error ("Error getting user shares: " ++ message) ;; ret None).

(** The [switch (args.action)] of [main]. *)
Definition dispatch (cfg : config) (contract tokenContract : Contract) (tokenInfo : TokenInfo)
    (args : ParsedArguments) (signer : Wallet) : M node Rpc.receipt :=
  if (action args =? "buy")%string then
    executeBuy cfg contract tokenContract tokenInfo
      (the (marketId args)) (the (outcomeId args)) (the (value args)) (the (minShares args))
      (address signer)
  else if (action args =? "sell")%string then
    executeSell contract tokenInfo
      (the (marketId args)) (the (outcomeId args)) (the (value args)) (the (maxShares args))
  else if (action args =? "claimWinnings")%string then
    executeClaimWinnings contract (the (marketId args))
  else
    throw ("Unknown action: " ++ action args).

Definition main (cfg : config) (argv : list string) : M node unit :=
  try_catch
    (args <- parseArguments argv ;;
     abi <- readABI ;;
     erc20Abi <- readERC20ABI ;;
     setup <- setupEthers (privateKey args) (RPC_URL cfg) ;;
     contract <- createContract (CONTRACT_ADDRESS cfg) abi (signer setup) ;;
     tokenContract <- createContract (ERC20_TOKEN_ADDRESS cfg) erc20Abi (signer setup) ;;
     log ("Contract address: " ++ CONTRACT_ADDRESS cfg) ;;
     log ("Token address: " ++ ERC20_TOKEN_ADDRESS cfg ++ nl) ;;
     tokenInfo <- getTokenInfo tokenContract ;;
     log ("Token: " ++ name tokenInfo ++ " (" ++ symbol tokenInfo ++ ")") ;;
     log ("Decimals: " ++ toString (decimals tokenInfo) ++ nl) ;;
     (if truthy (marketId args) then
        getUserShares contract tokenInfo (the (marketId args)) (address (signer setup)) ;;
        log ("---" ++ nl)
      else ret tt) ;;
     receipt <- dispatch cfg contract tokenContract tokenInfo args (signer setup) ;;
     log (nl ++ "---" ++ nl) ;;
     (if truthy (marketId args) then
        getUserShares contract tokenInfo (the (marketId args)) (address (signer setup)) ;;
        ret tt
      else ret tt) ;;
     log (nl ++ "Action completed successfully! ✅"))
    (fun message =>
       error (nl ++ "Action failed! ❌") ;;
       error ("Error: " ++ message) ;;
       exit 1).

(** The module from its first statement to [main()]. *)
Definition program (argv : list string) : M node unit :=
  cfg <- configuration ;;
  main cfg argv.

End Tool.

(* ================================================================== *)
(** * Part 5.  Vocabulary of the statements                            *)
(* ================================================================== *)

(** The outcome of awaiting a settled promise. *)
Definition outcome_of {A} (r : result A) : outcome A :=
  match r with
  | Ok a => Return a
  | Err message => Throw message
  end.

(** [triple m w Q]: run from [w], the computation [m] ends with an
    outcome [o] in ledger state [n] after appending the events [evs] to
    the trace, and [Q o n evs] holds. *)
Definition triple {node A} (m : M node A) (w : world node)
    (Q : outcome A -> node -> list event -> Prop) : Prop :=
  exists o n evs, m w = (o, World n (trace w ++ evs)%list) /\ Q o n evs.

(** Console output. *)
Definition console (e : event) : bool :=
  match e with
  | Stdout _ | Stderr _ => true
  | _ => false
  end.

(** What may happen before the tool touches the allowance or a
    transaction: console output, local set-up, and the reads other than
    the allowance. *)
Definition preflight (e : event) : bool :=
  match e with
  | Stdout _ | Stderr _ | ReadFile _ | NewProvider _ | NewContract _ | GetBalance _ => true
  | Read _ method _ => negb (method =? "allowance")%string
  | EstimateGas _ _ | GetFeeData _ | Send _ _ _ | Wait _ _ => false
  end.

Definition is_send (e : event) : bool :=
  match e with
  | Send _ _ _ => true
  | _ => false
  end.

(** An approval of [amount] for [spender] was submitted. *)
Definition approval_submitted (spender : string) (amount : Z) (evs : list event) : Prop :=
  exists c o answer,
    In (Send c o answer) evs
    /\ Rpc.method c = "approve"
    /\ Rpc.args c = [Rpc.Text spender; Rpc.Num amount].

(** Every submission among [evs] comes after the gas estimate of the
    same call was obtained, and its gas limit is that estimate with
    the buffer of [limit] applied. *)
Definition gas_planned (limit : Z -> Z) (evs : list event) : Prop :=
  forall pre c o answer post,
    evs = (pre ++ Send c o answer :: post)%list ->
    exists g, In (EstimateGas c (Ok g)) pre /\ Rpc.gasLimit o = limit g.

(** The same, read along the trace: [seen] holds the earlier events,
    latest first. *)
Fixpoint planned (limit : Z -> Z) (seen evs : list event) : Prop :=
  match evs with
  | [] => True
  | e :: evs' =>
      match e with
      | Send c o _ => exists g, In (EstimateGas c (Ok g)) seen /\ Rpc.gasLimit o = limit g
      | _ => True
      end
      /\ planned limit (e :: seen) evs'
  end.

(** Every submission among [evs] carries the buffered estimate of its
    own call, whatever came before [evs]. *)
Definition well_planned (evs : list event) : Prop :=
  forall seen, planned bufferedGas seen evs.

(** The gas limit in the words of the specification:
    [ceil(estimate * 1.2)]. *)
Definition ceilGas (estimate : Z) : Z := Qceiling (inject_Z estimate * (12 # 10))%Q.

(** The events an executor of the market call [c] may produce: console
    output, the estimate and the submission of [c], fee data, the wait. *)
Definition of_call (c : Rpc.call) (e : event) : Prop :=
  match e with
  | Stdout _ | Stderr _ | GetFeeData _ | Wait _ _ => True
  | EstimateGas c' _ => c' = c
  | Send c' _ _ => c' = c
  | _ => False
  end.

(** Every estimated and every submitted call satisfies [P]. *)
Definition calls_satisfy (P : Rpc.call -> Prop) (e : event) : Prop :=
  match e with
  | EstimateGas c _ | Send c _ _ => P c
  | _ => True
  end.

(** Every request but the position read is answered, in every state of
    the ledger. *)
Definition answering {node} (rpc : Rpc.api node) : Prop :=
  forall (n : node) (message : string),
    (forall a, Rpc.getBalance rpc n a <> Err message)
    /\ (forall t, Rpc.decimals rpc n t <> Err message)
    /\ (forall t, Rpc.symbol rpc n t <> Err message)
    /\ (forall t, Rpc.name rpc n t <> Err message)
    /\ (forall t u s, Rpc.allowance rpc n t u s <> Err message)
    /\ (forall t u, Rpc.balanceOf rpc n t u <> Err message)
    /\ (forall c, Rpc.estimateGas rpc n c <> Err message)
    /\ Rpc.getFeeData rpc n <> Err message
    /\ (forall c o, fst (Rpc.send rpc n c o) <> Err message)
    /\ (forall tx, fst (Rpc.wait rpc n tx) <> Err message).

(** The configuration is present, the ABI documents load, and ethers
    accepts the endpoint, the key and the contracts. *)
Definition ready (sys : system) (privateKey : string) : Prop :=
  (exists s, env sys "RPC_URL" = Some s /\ s <> ""%string)
  /\ (exists s, env sys "CONTRACT_ADDRESS" = Some s /\ s <> ""%string)
  /\ (exists s, env sys "ERC20_TOKEN_ADDRESS" = Some s /\ s <> ""%string)
  /\ (forall path message, readJson sys path <> Err message)
  /\ (forall url message, newProvider sys url <> Err message)
  /\ (forall message, newWallet sys privateKey <> Err message)
  /\ (forall a abi message, newContract sys a abi <> Err message).

(** A transaction was submitted. *)
Definition sent (evs : list event) : Prop := existsb is_send evs = true.

(** The run returns to the end of [main]: the process ends with status
    0, the success line is the last thing printed, and a transaction
    was submitted on the way. *)
Definition completes {node} (m : M node unit) (w : world node) : Prop :=
  exists n evs,
    m w = (Return tt, World n (trace w ++ evs)%list)
    /\ exit_code (fst (m w)) = 0
    /\ last evs (Stdout "") = Stdout (nl ++ "Action completed successfully! ✅")
    /\ sent evs.

(** Decimal digits only, for intermediate statements on strings. *)
Definition zeros_of (j : nat) : chars := repeat "0"%char j.

Definition sign_chars (neg : bool) : chars := if neg then ["-"%char] else [].

(** ** A stub node and process for concrete runs *)

Module Stub.

(** A token ledger seen from one owner and one spender, with the number
    of transactions submitted so far. *)
Record ledger : Type := Ledger {
  tokenBalance : Z;
  approved : Z;
  submitted : nat
}.

Definition send (l : ledger) (c : Rpc.call) (o : Rpc.overrides)
  : result Rpc.response * ledger :=
  (Ok (Rpc.Response (if (Rpc.method c =? "approve")%string then "0xdef123" else "0xabcdef")),
   match Rpc.args c with
   | [_; Rpc.Num amount] => Ledger (tokenBalance l) amount (S (submitted l))
   | _ => Ledger (tokenBalance l) (approved l) (S (submitted l))
   end).

(** Every request is answered, with [gas] as the estimate; the position
    read answers [position]. *)
Definition node (gas : Z) (position : result (Z * list Z)) : Rpc.api ledger :=
  Rpc.Api ledger
    (fun _ _ => Ok 1000000000000000000)
    (fun _ _ => Ok 6)
    (fun _ _ => Ok "USDC"%string)
    (fun _ _ => Ok "USD Coin"%string)
    (fun l _ _ _ => Ok (approved l))
    (fun l _ _ => Ok (tokenBalance l))
    (fun _ _ _ _ => position)
    (fun _ _ => Ok gas)
    (fun _ => Ok (Some 500000000))
    send
    (fun l _ => (Ok (Rpc.Receipt 12345678 89234), l)).

Definition process : system :=
  System
    (fun name =>
       if (name =? "RPC_URL")%string then Some "https://rpc.sepolia.linea.build"%string
       else if (name =? "CONTRACT_ADDRESS")%string then Some "0xMarket"%string
       else if (name =? "ERC20_TOKEN_ADDRESS")%string then Some "0xToken"%string
       else None)
    (fun _ => Ok (Some []))
    (fun _ => Ok tt)
    (fun _ => Ok "0xUser"%string)
    (fun _ _ => Ok tt).

Definition start (balance allowance : Z) : world ledger :=
  World (Ledger balance allowance 0) [].

Definition usdc : TokenInfo := mkTokenInfo 6 "USDC" "USD Coin".
Definition user : Wallet := mkWallet "0xUser".
Definition market : Contract := mkContract "0xMarket" user.
Definition token : Contract := mkContract "0xToken" user.

End Stub.

(* ================================================================== *)
(** * Part 6.  Vocabulary of the further properties                    *)
(* ================================================================== *)

(** A configuration variable that is absent or empty, and one that is
    there. *)
Definition unset (sys : system) (name : string) : Prop :=
  env sys name = None \/ env sys name = Some ""%string.

Definition provided (sys : system) (name : string) : Prop :=
  exists s, env sys name = Some s /\ s <> ""%string.

(** The two lines printed for a missing configuration variable. *)
Definition missing_report (name example : string) : list event :=
  [Stderr ("❌ Error: " ++ name ++ " environment variable is required");
   Stderr ("Set it with: export " ++ name ++ "=" ++ dq ++ example ++ dq)].

(** The argument lists the parser accepts: an action, a private key and
    enough positional parameters for the action. *)
Definition invocation (args : list string) : Prop :=
  exists action key rest,
    args = action :: key :: rest
    /\ (((action = "buy" \/ action = "sell")%string /\ (3 <= List.length rest)%nat)
        \/ (action = "claimWinnings"%string /\ (1 <= List.length rest)%nat)).

(** Events that stay inside the process: console output, file reads and
    the construction of provider and contracts.  No request to the node
    is among them. *)
Definition offline (e : event) : bool :=
  match e with
  | Stdout _ | Stderr _ | ReadFile _ | NewProvider _ | NewContract _ => true
  | _ => false
  end.

(** Console output and file reads only. *)
Definition files_only (e : event) : bool :=
  match e with
  | Stdout _ | Stderr _ | ReadFile _ => true
  | _ => false
  end.

(** The number of submissions among [evs]. *)
Definition sends (evs : list event) : nat := List.length (filter is_send evs).

(** A run that submits at most [k] transactions and, when it submits
    none, ends in the ledger state [origin] it started from. *)
Definition footprint {node} (k : nat) (origin : node) (n : node) (evs : list event) : Prop :=
  (sends evs <= k)%nat /\ (sends evs = O -> n = origin).

(** The three reads of the token metadata. *)
Definition metadata_reads (token : string) : list event :=
  [Read token "decimals" []; Read token "symbol" []; Read token "name" []].

(** What is known of every run of [main] and of the program: how it
    ends, how many transactions it submits, and when the ledger is as
    it was. *)
Definition summary {node} (w : world node) (argv : list string)
    (o : outcome unit) (n : node) (evs : list event) : Prop :=
  ((o = Return tt
    /\ exists pre, evs = (pre ++ [Stdout (nl ++ "Action completed successfully! ✅")])%list)
   \/ o = Exit 1)
  /\ footprint 2 (chain w) n evs
  /\ (forall a, hd_error (skipn 2 argv) = Some a -> a <> "buy"%string -> (sends evs <= 1)%nat).

(** ** Further stubs *)

Module Fixture.

(** A process whose configuration is there, with a given ABI loader and
    a given answer of the wallet constructor. *)
Definition process (json : string -> result (option Abi)) (wallet : result string) : system :=
  System (env Stub.process) json (fun _ => Ok tt) (fun _ => wallet) (fun _ _ => Ok tt).

(** A process without any configuration. *)
Definition bare : system :=
  System (fun _ => None) (fun _ => Ok (Some [])) (fun _ => Ok tt)
    (fun _ => Ok "0xUser"%string) (fun _ _ => Ok tt).

(** A process that lacks the token address only. *)
Definition tokenless : system :=
  System
    (fun name =>
       if (name =? "RPC_URL")%string then Some "https://rpc.sepolia.linea.build"%string
       else if (name =? "CONTRACT_ADDRESS")%string then Some "0xMarket"%string
       else if (name =? "ERC20_TOKEN_ADDRESS")%string then Some ""%string
       else None)
    (fun _ => Ok (Some [])) (fun _ => Ok tt) (fun _ => Ok "0xUser"%string) (fun _ _ => Ok tt).

(** A process that lacks the market address only. *)
Definition marketless : system :=
  System
    (fun name =>
       if (name =? "RPC_URL")%string then Some "https://rpc.sepolia.linea.build"%string
       else if (name =? "ERC20_TOKEN_ADDRESS")%string then Some "0xToken"%string
       else None)
    (fun _ => Ok (Some [])) (fun _ => Ok tt) (fun _ => Ok "0xUser"%string) (fun _ _ => Ok tt).

(** The market ABI document is missing. *)
Definition no_market_abi (path : string) : result (option Abi) :=
  if (path =? "../contracts/PredictionMarketV3_4.json")%string
  then Err "ENOENT: no such file or directory"
  else Ok (Some []).

(** The token ABI document is missing. *)
Definition no_token_abi (path : string) : result (option Abi) :=
  if (path =? "../contracts/ERC20.json")%string
  then Err "ENOENT: no such file or directory"
  else Ok (Some []).

(** The stub node with a gas estimation that reverts, and with a symbol
    read that fails when [symbol_fails]. *)
Definition node (symbol_fails : bool) (estimate : result Z) : Rpc.api Stub.ledger :=
  Rpc.Api Stub.ledger
    (fun _ _ => Ok 1000000000000000000)
    (fun _ _ => Ok 6)
    (fun _ _ => if symbol_fails then Err "call revert exception" else Ok "USDC"%string)
    (fun _ _ => Ok "USD Coin"%string)
    (fun l _ _ _ => Ok (Stub.approved l))
    (fun l _ _ => Ok (Stub.tokenBalance l))
    (fun _ _ _ _ => Ok (0, [0; 0]))
    (fun _ _ => estimate)
    (fun _ => Ok (Some 500000000))
    Stub.send
    (fun l _ => (Ok (Rpc.Receipt 12345678 89234), l)).

End Fixture.

(* ================================================================== *)
(** * Properties                                                       *)
(* ================================================================== *)

(** ** Decimal strings *)

Section DecimalStrings.

Local Open Scope list_scope.

Lemma digit_char_value (d : Z) : 0 <= d < 10 -> digit_value (digit_char d) = d.
Proof.
  intros Hd. unfold digit_value, digit_char, code.
  rewrite nat_ascii_embedding by lia. lia.
Qed.

Lemma digit_char_is_digit (d : Z) : 0 <= d < 10 -> is_digit (digit_char d) = true.
Proof.
  intros Hd. unfold is_digit, digit_char, code.
  rewrite nat_ascii_embedding by lia.
  apply andb_true_intro; split; apply Z.leb_le; lia.
Qed.

Lemma digits_value_app (s t : chars) :
  forall a, digits_value a (s ++ t) = digits_value (digits_value a s) t.
Proof. induction s as [|c s IH]; intros a; simpl; auto. Qed.

Lemma digits_loop_spec (fuel : nat) :
  forall n acc, 0 <= n < 2 ^ Z.of_nat fuel ->
    exists ds, digits_loop fuel n acc = ds ++ acc
               /\ forallb is_digit ds = true
               /\ digits_value 0 ds = n
               /\ (fuel <> O -> ds <> []).
Proof.
  induction fuel as [|fuel IH]; intros n acc Hn.
  - exists []. simpl in *. repeat split; auto; lia.
  - assert (Hd : 0 <= n mod 10 < 10) by (apply Z.mod_pos_bound; lia).
    cbn [digits_loop]. destruct (n / 10 =? 0) eqn:Hq.
    + apply Z.eqb_eq in Hq.
      exists [digit_char (n mod 10)]. repeat split.
      * simpl. now rewrite digit_char_is_digit.
      * simpl. rewrite digit_char_value by assumption.
        pose proof (Z.div_mod n 10). lia.
      * discriminate.
    + apply Z.eqb_neq in Hq.
      destruct (IH (n / 10) (digit_char (n mod 10) :: acc)) as (ds & E & Hds & Hv & _).
      { split; [apply Z.div_pos; lia|].
        apply Z.div_lt_upper_bound; [lia|].
        rewrite Nat2Z.inj_succ, Z.pow_succ_r in Hn by lia. lia. }
      exists (ds ++ [digit_char (n mod 10)]). repeat split.
      * rewrite E, <- app_assoc. reflexivity.
      * rewrite forallb_app, Hds. simpl. now rewrite digit_char_is_digit.
      * rewrite digits_value_app, Hv. simpl.
        rewrite digit_char_value by assumption.
        pose proof (Z.div_mod n 10). lia.
      * intros _ Hnil. apply app_eq_nil in Hnil. destruct Hnil; discriminate.
Qed.

Lemma nat_digits_spec (n : Z) :
  0 <= n ->
  forallb is_digit (nat_digits n) = true
  /\ digits_value 0 (nat_digits n) = n
  /\ nat_digits n <> [].
Proof.
  intros Hn. unfold nat_digits.
  destruct (digits_loop_spec (S (Z.to_nat (Z.log2 n))) n []) as (ds & E & Hds & Hv & Hne).
  - split; [assumption|].
    rewrite Nat2Z.inj_succ, Z2Nat.id by apply Z.log2_nonneg.
    destruct (Z.eq_dec n 0) as [->|Hz]; [reflexivity|].
    apply Z.log2_spec. lia.
  - rewrite E, app_nil_r. auto.
Qed.

Lemma digits_value_zeros (j : nat) (s : chars) :
  digits_value 0 (repeat "0"%char j ++ s) = digits_value 0 s.
Proof. induction j as [|j IH]; simpl; auto. Qed.

Lemma is_digit_other (c : ascii) :
  is_digit c = true ->
  (c =? "-")%char = false /\ (c =? "+")%char = false /\ (c =? ".")%char = false
  /\ is_space c = false /\ radix_of_prefix c = None.
Proof.
  destruct c as [[] [] [] [] [] [] [] []]; vm_compute; intros H;
    try discriminate H; repeat split.
Qed.

Lemma trim_start_id (s : chars) :
  forallb (fun c => negb (is_space c)) s = true -> trim_start s = s.
Proof.
  destruct s as [|c s]; simpl; auto.
  intros H. apply andb_prop in H. destruct H as [H _].
  destruct (is_space c); [discriminate|reflexivity].
Qed.

Lemma trim_id (s : chars) :
  forallb (fun c => negb (is_space c)) s = true -> trim s = s.
Proof.
  intros H. unfold trim. rewrite (trim_start_id s H).
  rewrite trim_start_id; [apply rev_involutive|].
  apply forallb_forall. intros c Hc. apply in_rev in Hc.
  revert c Hc. now apply forallb_forall.
Qed.

Lemma digits_no_space (s : chars) :
  forallb is_digit s = true -> forallb (fun c => negb (is_space c)) s = true.
Proof.
  intros H. apply forallb_forall. intros c Hc.
  assert (Hd : is_digit c = true) by (revert c Hc; now apply forallb_forall).
  apply is_digit_other in Hd. destruct Hd as (_ & _ & _ & Hs & _). now rewrite Hs.
Qed.

(** [BigInt] reads a non-empty digit string, with or without a minus
    sign, as its decimal value. *)
Lemma string_to_bigint_digits (neg : bool) (ds : chars) :
  ds <> [] -> forallb is_digit ds = true ->
  string_to_bigint ((if neg then ["-"%char] else []) ++ ds)
  = Some (if neg then - digits_value 0 ds else digits_value 0 ds).
Proof.
  intros Hne Hds. unfold string_to_bigint.
  rewrite trim_id.
  2:{ rewrite forallb_app, (digits_no_space ds Hds). now destruct neg. }
  destruct neg; cbn [app].
  - rewrite Ascii.eqb_refl. unfold decimal_literal.
    destruct ds as [|c ds]; [congruence|]. now rewrite Hds.
  - destruct ds as [|c ds]; [congruence|].
    assert (Hlit : decimal_literal (c :: ds) = Some (digits_value 0 (c :: ds)))
      by (unfold decimal_literal; now rewrite Hds).
    simpl in Hds. apply andb_prop in Hds. destruct Hds as [Hc Hrest].
    destruct (is_digit_other c Hc) as (-> & -> & _).
    destruct ds as [|p ds]; [exact Hlit|].
    simpl in Hrest. apply andb_prop in Hrest. destruct Hrest as [Hp _].
    destruct (is_digit_other p Hp) as (_ & _ & _ & _ & ->).
    destruct (c =? "0")%char; exact Hlit.
Qed.

End DecimalStrings.

(** ** Formatting and parsing token amounts *)

Section Units.

Local Open Scope list_scope.
Import Ethers.

Lemma pad_start_spec (fuel decimals : nat) :
  forall str, (decimals < fuel + List.length str)%nat ->
    exists k, pad_start fuel decimals str = zeros_of k ++ str
              /\ (decimals < List.length (pad_start fuel decimals str))%nat.
Proof.
  induction fuel as [|fuel IH]; intros str H; cbn [pad_start].
  - exists O. split; [reflexivity|simpl in H; lia].
  - destruct (Nat.leb_spec (List.length str) decimals) as [Hle|Hgt].
    + destruct (IH (Zeros ++ str)) as (k & E & Hlen).
      { rewrite length_app. simpl. lia. }
      exists (k + 4)%nat. split; [|assumption].
      rewrite E. unfold zeros_of. rewrite repeat_app, <- app_assoc. reflexivity.
    + exists O. split; [reflexivity|lia].
Qed.

Lemma pad_end_spec (fuel decimals : nat) :
  forall decimal, (decimals <= fuel + List.length decimal)%nat ->
    exists k, pad_end fuel decimals decimal = decimal ++ zeros_of k
              /\ (decimals <= List.length (pad_end fuel decimals decimal))%nat.
Proof.
  induction fuel as [|fuel IH]; intros decimal H; cbn [pad_end].
  - exists O. split; [now rewrite app_nil_r|simpl in H; lia].
  - destruct (Nat.ltb_spec (List.length decimal) decimals) as [Hlt|Hge].
    + destruct (IH (decimal ++ Zeros)) as (k & E & Hlen).
      { rewrite length_app. simpl. lia. }
      exists (4 + k)%nat. split; [|assumption].
      rewrite E. unfold zeros_of. rewrite repeat_app, <- app_assoc. reflexivity.
    + exists O. split; [now rewrite app_nil_r|lia].
Qed.

(** Trimming stops at the last digit before the point. *)
Lemma trim_zeros_spec (A : chars) :
  forall B, A <> [] -> forallb is_digit A = true ->
    exists j A', A = zeros_of j ++ A' /\ A' <> []
                 /\ trim_zeros (A ++ "."%char :: B) = A' ++ "."%char :: B.
Proof.
  induction A as [|a A IH]; intros B Hne Hd; [congruence|].
  simpl in Hd. apply andb_prop in Hd. destruct Hd as [Ha HA].
  destruct A as [|a1 A].
  - exists O, [a]. repeat split; [discriminate|].
    simpl. now rewrite andb_false_r.
  - pose proof HA as HA'. simpl in HA'. apply andb_prop in HA'. destruct HA' as [Ha1 _].
    destruct (is_digit_other a1 Ha1) as (_ & _ & Hdot & _).
    change ((a :: a1 :: A) ++ "."%char :: B) with (a :: (a1 :: A) ++ "."%char :: B).
    cbn [trim_zeros]. change ((a1 :: A) ++ "."%char :: B) with (a1 :: A ++ "."%char :: B) at 1.
    cbv iota. rewrite Hdot. cbn [negb]. rewrite andb_true_r.
    destruct (a =? "0")%char eqn:E0.
    + apply Ascii.eqb_eq in E0. subst a.
      destruct (IH B) as (j & A' & EA & HneA & Et); [discriminate|exact HA|].
      exists (S j), A'. repeat split; [|assumption|assumption].
      unfold zeros_of in *. simpl. now rewrite <- EA.
    + exists O, (a :: a1 :: A). repeat split. discriminate.
Qed.

Lemma forallb_zeros (j : nat) : forallb (fun c => (c =? "0")%char) (zeros_of j) = true.
Proof. induction j; simpl; auto. Qed.

Lemma zeros_are_digits (j : nat) : forallb is_digit (zeros_of j) = true.
Proof. induction j; simpl; auto. Qed.

Lemma span_digits (W rest : chars) :
  forallb is_digit W = true ->
  match rest with c :: _ => is_digit c = false | [] => True end ->
  span is_digit (W ++ rest) = (W, rest).
Proof.
  intros HW Hrest. induction W as [|c W IH]; simpl.
  - destruct rest as [|c rest]; [reflexivity|]. simpl. now rewrite Hrest.
  - simpl in HW. apply andb_prop in HW. destruct HW as [Hc HW].
    rewrite Hc, (IH HW). reflexivity.
Qed.

Lemma strip_sign (neg : bool) (W rest : chars) :
  W <> [] -> forallb is_digit W = true ->
  strip "-" (sign_chars neg ++ W ++ rest) = (sign_chars neg, W ++ rest).
Proof.
  intros Hne HW. destruct neg; [reflexivity|].
  destruct W as [|c W]; [congruence|].
  simpl in HW. apply andb_prop in HW. destruct HW as [Hc _].
  destruct (is_digit_other c Hc) as (Hm & _). simpl. now rewrite Hm.
Qed.

Lemma rev_zeros (j : nat) : rev (zeros_of j) = zeros_of j.
Proof.
  unfold zeros_of. induction j as [|j IH]; [reflexivity|].
  simpl. rewrite IH. clear IH. induction j as [|j IH]; [reflexivity|].
  simpl. now rewrite IH.
Qed.

Lemma firstn_zeros (j k : nat) : (j <= k)%nat -> firstn j (zeros_of k) = zeros_of j.
Proof.
  revert k. induction j as [|j IH]; intros k H; [reflexivity|].
  destruct k as [|k]; [lia|]. unfold zeros_of in *. simpl. rewrite IH by lia. reflexivity.
Qed.

Lemma forallb_skipn {A : Type} (p : A -> bool) (n : nat) :
  forall l, forallb p l = true -> forallb p (skipn n l) = true.
Proof.
  induction n as [|n IH]; intros [|x l] H; simpl; auto.
  simpl in H. apply andb_prop in H. now apply IH.
Qed.

(** Shape of a formatted amount when the decimal count is positive. *)
Lemma format_chars_shape (v : Z) (d : nat) :
  d <> O ->
  exists W F j,
    format_chars v d = sign_chars (v <? 0) ++ W ++ "."%char :: F
    /\ W <> [] /\ forallb is_digit W = true /\ forallb is_digit F = true
    /\ (List.length F + j = d)%nat
    /\ digits_value 0 (W ++ F ++ zeros_of j) = Z.abs v.
Proof.
  intros Hd.
  destruct (nat_digits_spec (Z.abs v) (Z.abs_nonneg v)) as (HS & HvS & _).
  unfold format_chars.
  destruct (Nat.eqb_spec d 0) as [|_]; [congruence|].
  destruct (pad_start_spec (S d) d (nat_digits (Z.abs v))) as (k & EP & HlenP); [lia|].
  set (P := pad_start (S d) d (nat_digits (Z.abs v))) in *.
  set (index := (List.length P - d)%nat).
  assert (HP : forallb is_digit P = true)
    by (rewrite EP, forallb_app, zeros_are_digits, HS; reflexivity).
  assert (HvP : digits_value 0 P = Z.abs v)
    by (rewrite EP, digits_value_zeros; exact HvS).
  rewrite <- (firstn_skipn index P) in HP, HvP.
  rewrite forallb_app in HP. apply andb_prop in HP. destruct HP as [HW0 HF0].
  assert (HlenF0 : List.length (skipn index P) = d)
    by (rewrite length_skipn; unfold index; lia).
  assert (HneW0 : firstn index P <> []).
  { intros E. apply (f_equal (@List.length ascii)) in E.
    rewrite length_firstn in E. simpl in E. unfold index in E. lia. }
  destruct (trim_zeros_spec (firstn index P) (skipn index P) HneW0 HW0)
    as (j1 & W & EW & HneW & EtW).
  rewrite EtW.
  assert (Erev : rev (W ++ "."%char :: skipn index P)
                 = rev (skipn index P) ++ "."%char :: rev W).
  { rewrite rev_app_distr. simpl. now rewrite <- app_assoc. }
  rewrite Erev.
  destruct (trim_zeros_spec (rev (skipn index P)) (rev W)) as (j & Fr & EF & HneF & EtF).
  { intros E. apply (f_equal (@List.length ascii)) in E.
    rewrite length_rev, HlenF0 in E. simpl in E. lia. }
  { apply forallb_forall. intros c Hc. apply in_rev in Hc.
    revert c Hc. now apply forallb_forall. }
  rewrite EtF.
  assert (EF0 : skipn index P = rev Fr ++ zeros_of j).
  { rewrite <- (rev_involutive (skipn index P)), EF, rev_app_distr, rev_zeros. reflexivity. }
  exists W, (rev Fr), j. repeat split.
  - rewrite rev_app_distr. simpl. rewrite rev_involutive, <- app_assoc. reflexivity.
  - assumption.
  - rewrite EW, forallb_app in HW0. apply andb_prop in HW0. tauto.
  - rewrite EF0, forallb_app in HF0. apply andb_prop in HF0. tauto.
  - rewrite <- HlenF0, EF0, length_app. unfold zeros_of. now rewrite repeat_length.
  - rewrite <- EF0, <- HvP, EW, <- app_assoc. now rewrite digits_value_zeros.
Qed.

(** What the parser reads back from a string of that shape. *)
Lemma parse_chars_fraction (neg : bool) (W F : chars) (j d : nat) :
  W <> [] -> forallb is_digit W = true -> forallb is_digit F = true ->
  (List.length F + j = d)%nat ->
  parse_chars (sign_chars neg ++ W ++ "."%char :: F) d
  = Ok (if neg then - digits_value 0 (W ++ F ++ zeros_of j)
        else digits_value 0 (W ++ F ++ zeros_of j)).
Proof.
  intros HneW HW HF Hlen. unfold parse_chars.
  rewrite (strip_sign neg W _ HneW HW).
  rewrite (span_digits W ("."%char :: F) HW) by reflexivity.
  cbn [strip]. rewrite Ascii.eqb_refl.
  rewrite <- (app_nil_r F) at 1. rewrite (span_digits F [] HF I).
  destruct (Nat.eqb_spec (List.length W + List.length F) 0) as [E0|_].
  { destruct W; [congruence|simpl in E0; lia]. }
  destruct (pad_end_spec (S d) d F) as (k & EP & HlenP); [lia|].
  rewrite EP in *. rewrite length_app in HlenP.
  unfold zeros_of in HlenP. rewrite repeat_length in HlenP. fold (zeros_of k).
  rewrite skipn_app, (skipn_all2 F) by lia. cbn [app].
  rewrite (forallb_skipn _ _ _ (forallb_zeros k)).
  rewrite firstn_app, (firstn_all2 F) by lia.
  replace (d - List.length F)%nat with j by lia.
  rewrite (firstn_zeros j k) by lia.
  replace (match W with [] => ["0"%char] | _ :: _ => W end) with W
    by (destruct W; [congruence|reflexivity]).
  change (sign_chars neg) with (if neg then ["-"%char] else []).
  rewrite string_to_bigint_digits.
  - reflexivity.
  - destruct W; [congruence|discriminate].
  - rewrite !forallb_app, HW, HF, zeros_are_digits. reflexivity.
Qed.

Lemma parse_chars_whole (neg : bool) (W : chars) :
  W <> [] -> forallb is_digit W = true ->
  parse_chars (sign_chars neg ++ W) 0
  = Ok (if neg then - digits_value 0 W else digits_value 0 W).
Proof.
  intros HneW HW. unfold parse_chars.
  rewrite <- (app_nil_r W) at 1.
  rewrite (strip_sign neg W [] HneW HW), (span_digits W [] HW I).
  cbn [strip span pad_end List.length Nat.ltb Nat.leb skipn firstn forallb].
  destruct (Nat.eqb_spec (List.length W + 0) 0) as [E0|_].
  { destruct W; [congruence|simpl in E0; lia]. }
  replace (match W with [] => ["0"%char] | _ :: _ => W end) with W
    by (destruct W; [congruence|reflexivity]).
  rewrite app_nil_r. change (sign_chars neg) with (if neg then ["-"%char] else []).
  now rewrite string_to_bigint_digits.
Qed.

Lemma signed_abs (v : Z) : (if v <? 0 then - Z.abs v else Z.abs v) = v.
Proof. destruct (Z.ltb_spec v 0); lia. Qed.

(** Round trip on character lists, for every decimal count. *)
Lemma parse_format_chars (v : Z) (d : nat) :
  parse_chars (format_chars v d) d = Ok v.
Proof.
  destruct d as [|d].
  - destruct (nat_digits_spec (Z.abs v) (Z.abs_nonneg v)) as (HS & HvS & Hne).
    unfold format_chars. cbn [Nat.eqb].
    change (if v <? 0 then ["-"%char] else []) with (sign_chars (v <? 0)).
    rewrite parse_chars_whole by assumption.
    rewrite HvS. f_equal. apply signed_abs.
  - destruct (format_chars_shape v (S d)) as (W & F & j & E & HneW & HW & HF & Hlen & Hv);
      [discriminate|].
    rewrite E, (parse_chars_fraction _ W F j (S d)) by assumption.
    rewrite Hv. f_equal. apply signed_abs.
Qed.

End Units.

(** C4. For every decimal count [d] between 0 and 18 and every base-unit
    integer [v], parsing the formatted amount gives [v] back:
    [parseTokenAmount(formatTokenAmount(v, d), d) == v]. *)
Theorem parse_format_roundtrip (d v : Z) :
  0 <= d <= 18 ->
  parseTokenAmount (formatTokenAmount v d) d = Ok v.
Proof.
  intros _. unfold parseTokenAmount, formatTokenAmount, Ethers.parseUnits, Ethers.formatUnits.
  rewrite list_ascii_of_string_of_list_ascii. apply parse_format_chars.
Qed.

Lemma parse_format_roundtrip_witness :
  parseTokenAmount (formatTokenAmount 9500000 6) 6 = Ok 9500000.
Proof. apply (parse_format_roundtrip 6 9500000). lia. Defined.

(** ** Rules for running the tool *)

Section Rules.

Context {node : Type}.
Variable rpc : Rpc.api node.

Local Open Scope list_scope.

Lemma world_eta (w : world node) : w = World (chain w) (trace w ++ []).
Proof. destruct w. simpl. now rewrite app_nil_r. Qed.

Lemma triple_weaken {A} (m : M node A) (w : world node)
    (Q Q' : outcome A -> node -> list event -> Prop) :
  triple m w Q -> (forall o n evs, Q o n evs -> Q' o n evs) -> triple m w Q'.
Proof. intros (o & n & evs & E & H) HQ. exists o, n, evs. auto. Qed.

Lemma triple_ret {A} (a : A) (w : world node) Q :
  Q (Return a) (chain w) [] -> triple (ret a) w Q.
Proof. intros H. exists (Return a), (chain w), []. split; [|exact H]. unfold ret. f_equal. apply world_eta. Qed.

Lemma triple_throw {A} (message : string) (w : world node) (Q : outcome A -> _) :
  Q (Throw message) (chain w) [] -> triple (throw message) w Q.
Proof. intros H. exists (Throw message), (chain w), []. split; [|exact H]. unfold throw. f_equal. apply world_eta. Qed.

Lemma triple_exit {A} (code : Z) (w : world node) (Q : outcome A -> _) :
  Q (Exit code) (chain w) [] -> triple (exit code) w Q.
Proof. intros H. exists (Exit code), (chain w), []. split; [|exact H]. unfold exit. f_equal. apply world_eta. Qed.

Lemma triple_await {A} (r : result A) (w : world node) Q :
  Q (outcome_of r) (chain w) [] -> triple (await r) w Q.
Proof.
  intros H. exists (outcome_of r), (chain w), []. split; [|exact H].
  destruct r; cbv [await ret throw outcome_of]; f_equal; apply world_eta.
Qed.

Lemma triple_log (text : string) (w : world node) Q :
  Q (Return tt) (chain w) [Stdout text] -> triple (log text) w Q.
Proof. intros H. exists (Return tt), (chain w), [Stdout text]. split; [reflexivity|exact H]. Qed.

Lemma triple_error (text : string) (w : world node) Q :
  Q (Return tt) (chain w) [Stderr text] -> triple (error text) w Q.
Proof. intros H. exists (Return tt), (chain w), [Stderr text]. split; [reflexivity|exact H]. Qed.

Lemma triple_ask {A} (e : event) (answer : node -> result A) (w : world node) Q :
  Q (Return (answer (chain w))) (chain w) [e] -> triple (ask e answer) w Q.
Proof. intros H. exists (Return (answer (chain w))), (chain w), [e]. split; [reflexivity|exact H]. Qed.

Lemma triple_perform {A} (e : event) (r : result A) (w : world node) Q :
  Q (outcome_of r) (chain w) [e] -> triple (perform e r) w Q.
Proof.
  intros H. exists (outcome_of r), (chain w), [e]. split; [|exact H].
  destruct r; reflexivity.
Qed.

Lemma triple_estimate (c : Rpc.call) (w : world node) Q :
  Q (outcome_of (Rpc.estimateGas rpc (chain w) c)) (chain w)
    [EstimateGas c (Rpc.estimateGas rpc (chain w) c)] ->
  triple (estimate rpc c) w Q.
Proof.
  intros H. eexists _, _, _. split; [|exact H].
  unfold estimate. destruct (Rpc.estimateGas rpc (chain w) c); reflexivity.
Qed.

Lemma triple_getFeeData (w : world node) Q :
  Q (outcome_of (Rpc.getFeeData rpc (chain w))) (chain w)
    [GetFeeData (Rpc.getFeeData rpc (chain w))] ->
  triple (getFeeData rpc) w Q.
Proof.
  intros H. eexists _, _, _. split; [|exact H].
  unfold getFeeData. destruct (Rpc.getFeeData rpc (chain w)); reflexivity.
Qed.

Lemma triple_submit (c : Rpc.call) (o : Rpc.overrides) (w : world node) Q :
  Q (outcome_of (fst (Rpc.send rpc (chain w) c o))) (snd (Rpc.send rpc (chain w) c o))
    [Send c o (fst (Rpc.send rpc (chain w) c o))] ->
  triple (submit rpc c o) w Q.
Proof.
  intros H. eexists _, _, _. split; [|exact H].
  unfold submit. destruct (Rpc.send rpc (chain w) c o) as [[a|msg] n']; reflexivity.
Qed.

Lemma triple_wait (tx : Rpc.response) (w : world node) Q :
  Q (outcome_of (fst (Rpc.wait rpc (chain w) tx))) (snd (Rpc.wait rpc (chain w) tx))
    [Wait tx (fst (Rpc.wait rpc (chain w) tx))] ->
  triple (wait rpc tx) w Q.
Proof.
  intros H. eexists _, _, _. split; [|exact H].
  unfold wait. destruct (Rpc.wait rpc (chain w) tx) as [[a|msg] n']; reflexivity.
Qed.

Lemma triple_bind {A B} (m : M node A) (k : A -> M node B) (w : world node) Q :
  triple m w (fun o n evs =>
    match o with
    | Return a => triple (k a) (World n (trace w ++ evs))
                    (fun o' n' evs' => Q o' n' (evs ++ evs'))
    | Throw message => Q (Throw message) n evs
    | Exit code => Q (Exit code) n evs
    end) ->
  triple (bind m k) w Q.
Proof.
  intros (o & n & evs & E & H). unfold triple, bind. rewrite E.
  destruct o as [a|message|code].
  - destruct H as (o' & n' & evs' & E' & H'). exists o', n', (evs ++ evs').
    split; [|exact H']. rewrite E'. simpl. now rewrite app_assoc.
  - exists (Throw message), n, evs. auto.
  - exists (Exit code), n, evs. auto.
Qed.

Lemma triple_try_catch {A} (body : M node A) (handler : string -> M node A)
    (w : world node) Q :
  triple body w (fun o n evs =>
    match o with
    | Throw message => triple (handler message) (World n (trace w ++ evs))
                         (fun o' n' evs' => Q o' n' (evs ++ evs'))
    | _ => Q o n evs
    end) ->
  triple (try_catch body handler) w Q.
Proof.
  intros (o & n & evs & E & H). unfold triple, try_catch. rewrite E.
  destruct o as [a|message|code].
  - exists (Return a), n, evs. auto.
  - destruct H as (o' & n' & evs' & E' & H'). exists o', n', (evs ++ evs').
    split; [|exact H']. rewrite E'. simpl. now rewrite app_assoc.
  - exists (Exit code), n, evs. auto.
Qed.

Lemma triple_equation {A} (m : M node A) (w : world node) o n evs Q :
  m w = (o, World n (trace w ++ evs)) -> Q o n evs -> triple m w Q.
Proof. intros E H. exists o, n, evs. auto. Qed.

Lemma triple_returns {A} (m : M node A) (w : world node) (a : A) Q :
  m w = (Return a, w) -> Q (Return a) (chain w) [] -> triple m w Q.
Proof. intros E H. exists (Return a), (chain w), []. split; [|exact H]. rewrite E. f_equal. apply world_eta. Qed.

(** A triple determines the run. *)
Lemma triple_run {A} (m : M node A) (w : world node) Q :
  triple m w Q ->
  exists evs, trace (snd (m w)) = trace w ++ evs /\ Q (fst (m w)) (chain (snd (m w))) evs.
Proof. intros (o & n & evs & E & H). exists evs. rewrite E. auto. Qed.

End Rules.

(** One step of a run: the rule of the construct at the head. *)
Ltac step :=
  lazymatch goal with
  | |- triple (bind _ _) _ _ => apply triple_bind
  | |- triple (try_catch _ _) _ _ => apply triple_try_catch
  | |- triple (ret _) _ _ => apply triple_ret
  | |- triple (throw _) _ _ => apply triple_throw
  | |- triple (exit _) _ _ => apply triple_exit
  | |- triple (await _) _ _ => apply triple_await
  | |- triple (log _) _ _ => apply triple_log
  | |- triple (error _) _ _ => apply triple_error
  | |- triple (ask _ _) _ _ => apply triple_ask
  | |- triple (perform _ _) _ _ => apply triple_perform
  | |- triple (estimate _ _) _ _ => apply triple_estimate
  | |- triple (getFeeData _) _ _ => apply triple_getFeeData
  | |- triple (submit _ _ _) _ _ => apply triple_submit
  | |- triple (wait _ _) _ _ => apply triple_wait
  end; cbn [chain trace outcome_of].

Ltac steps := repeat step.

(** Case analysis on the answer the run is waiting for. *)
Ltac answer :=
  lazymatch goal with
  | |- context [outcome_of ?r] =>
      let E := fresh "E" in destruct r eqn:E; cbn [outcome_of fst snd]
  end.

Ltac run := repeat (step || answer).

(** Both branches of a conditional of the tool. *)
Ltac branch :=
  lazymatch goal with
  | |- triple (if ?b then _ else _) _ _ => destruct b
  | |- triple (let (_, _) := ?p in _) _ _ => destruct p
  end.

Ltac explore := repeat (step || answer || branch).

(** Side conditions on event lists that were appended step by step. *)
Ltac quiet :=
  rewrite ?forallb_app; cbn [forallb preflight console andb];
  repeat match goal with H : forallb _ _ = true |- _ => rewrite H end;
  auto.

(** ** The steps of [main] before the action *)

Section Prelude.

Context {node : Type}.
Variable rpc : Rpc.api node.
Variable sys : system.

Local Open Scope list_scope.

Lemma required_spec (name example : string) (w : world node) :
  triple (required (node := node) sys name example) w (fun o n evs =>
    n = chain w /\ forallb console evs = true
    /\ (o = Exit 1 \/ exists s, o = Return s /\ evs = [] /\ env sys name = Some s)).
Proof.
  unfold required. destruct (env sys name) as [s|] eqn:E.
  - destruct (s =? "")%string.
    + steps. auto.
    + steps. eauto 8.
  - steps. auto.
Qed.

Lemma configuration_spec (w : world node) :
  triple (configuration (node := node) sys) w (fun o n evs =>
    n = chain w /\ forallb console evs = true
    /\ (o = Exit 1
        \/ exists cfg, o = Return cfg /\ evs = []
             /\ env sys "RPC_URL" = Some (RPC_URL cfg)
             /\ env sys "CONTRACT_ADDRESS" = Some (CONTRACT_ADDRESS cfg)
             /\ env sys "ERC20_TOKEN_ADDRESS" = Some (ERC20_TOKEN_ADDRESS cfg))).
Proof.
  unfold configuration.
  step. eapply triple_weaken; [apply required_spec|]. cbv beta.
  intros o n evs (-> & Hc & [-> | (s1 & -> & -> & E1)]); [auto|].
  step. eapply triple_weaken; [apply required_spec|]. cbv beta.
  intros o n evs (-> & Hc2 & [-> | (s2 & -> & -> & E2)]); [auto|].
  step. eapply triple_weaken; [apply required_spec|]. cbv beta.
  intros o n evs (-> & Hc3 & [-> | (s3 & -> & -> & E3)]); [auto|].
  steps. repeat split. right. exists (Config s1 s2 s3). auto.
Qed.

Lemma console_preflight (evs : list event) :
  forallb console evs = true -> forallb preflight evs = true.
Proof.
  induction evs as [|e evs IH]; simpl; auto.
  intros H. apply andb_prop in H. destruct H as [He H].
  rewrite (IH H). destruct e; try discriminate He; reflexivity.
Qed.

Lemma parseArguments_spec (argv : list string) (w : world node) :
  triple (parseArguments (node := node) argv) w (fun o n evs =>
    n = chain w /\ forallb console evs = true
    /\ (o = Exit 1 \/ exists args, o = Return args /\ evs = [])).
Proof.
  unfold parseArguments.
  destruct (skipn 2 argv) as [|action [|privateKey rest]]; [steps; auto | steps; auto |].
  destruct (action =? "buy")%string.
  { destruct (_ <? _)%nat; steps; eauto 8. }
  destruct (action =? "sell")%string.
  { destruct (_ <? _)%nat; steps; eauto 8. }
  destruct (action =? "claimWinnings")%string.
  { destruct (_ <? _)%nat; steps; eauto 8. }
  steps. auto.
Qed.

Lemma readABI_spec (w : world node) :
  triple (readABI (node := node) sys) w (fun o n evs =>
    n = chain w /\ forallb preflight evs = true
    /\ (o = Exit 1 \/ exists abi, o = Return abi)).
Proof. unfold readABI. run; eauto. Qed.

Lemma readERC20ABI_spec (w : world node) :
  triple (readERC20ABI (node := node) sys) w (fun o n evs =>
    n = chain w /\ forallb preflight evs = true
    /\ (o = Exit 1 \/ exists abi, o = Return abi)).
Proof. unfold readERC20ABI. run; eauto. Qed.

Lemma setupEthers_spec (privateKey rpcUrl : string) (w : world node) :
  triple (setupEthers rpc sys privateKey rpcUrl) w (fun o n evs =>
    n = chain w /\ forallb preflight evs = true
    /\ (o = Exit 1
        \/ exists a, o = Return (mkEthersSetup rpcUrl (mkWallet a))
                     /\ newWallet sys privateKey = Ok a)).
Proof. unfold setupEthers. run; eauto 8. Qed.

Lemma createContract_spec (contractAddress : string) (abi : option Abi) (signer : Wallet)
    (w : world node) :
  triple (createContract (node := node) sys contractAddress abi signer) w (fun o n evs =>
    n = chain w /\ forallb preflight evs = true
    /\ (o = Exit 1 \/ o = Return (mkContract contractAddress signer))).
Proof. unfold createContract. run; eauto. Qed.

Lemma getTokenInfo_spec (tokenContract : Contract) (w : world node) :
  triple (getTokenInfo rpc tokenContract) w (fun o n evs =>
    n = chain w /\ forallb preflight evs = true
    /\ ((exists message, o = Throw message) \/ exists tokenInfo, o = Return tokenInfo)).
Proof. unfold getTokenInfo. run; eauto 8. Qed.

(** The position reporter never throws and never exits. *)
Lemma getUserShares_spec (contract : Contract) (tokenInfo : TokenInfo)
    (marketId userAddress : string) (w : world node) :
  triple (getUserShares rpc contract tokenInfo marketId userAddress) w (fun o n evs =>
    n = chain w /\ forallb preflight evs = true
    /\ exists position, o = Return position).
Proof. unfold getUserShares. run; [destruct a|]; run; eauto. Qed.

End Prelude.

(** ** The argument parser *)

Section Arguments.

Context {node : Type}.
Variable rpc : Rpc.api node.
Variable sys : system.

Local Open Scope list_scope.

(** C5, amended. With fewer than three positional parameters after the
    private key, [buy] and [sell] print what they require and exit with
    status 1; [claimWinnings] does so with no positional parameter, and
    accepts one or more, of which it reads the first. *)
Theorem arity_per_action (w : world node) (a0 a1 privateKey : string) (rest : list string) :
  ((List.length rest < 3)%nat ->
     parseArguments (a0 :: a1 :: "buy" :: privateKey :: rest) w
     = (Exit 1, emit (Stderr "Buy action requires: marketId, outcomeId, value, and optionally minShares") w))
  /\ ((List.length rest < 3)%nat ->
     parseArguments (a0 :: a1 :: "sell" :: privateKey :: rest) w
     = (Exit 1, emit (Stderr "Sell action requires: marketId, outcomeId, value, and optionally maxShares") w))
  /\ ((List.length rest < 1)%nat ->
     parseArguments (a0 :: a1 :: "claimWinnings" :: privateKey :: rest) w
     = (Exit 1, emit (Stderr "ClaimWinnings action requires: marketId") w))
  /\ ((1 <= List.length rest)%nat ->
     parseArguments (a0 :: a1 :: "claimWinnings" :: privateKey :: rest) w
     = (Return (mkParsedArguments "claimWinnings" privateKey (nth_error rest 0)
                  None None None None), w)).
Proof.
  repeat split; intros H.
  - destruct rest as [|x [|y [|z rest]]]; try reflexivity. simpl in H. lia.
  - destruct rest as [|x [|y [|z rest]]]; try reflexivity. simpl in H. lia.
  - destruct rest as [|x rest]; [reflexivity|]. simpl in H. lia.
  - destruct rest as [|marketId rest]; [simpl in H; lia|]. reflexivity.
Qed.

(** C6. A [buy] without [minShares] is parsed with [minShares] equal to
    the string [0]; a [sell] without [maxShares] is parsed with
    [maxShares] equal to the decimal string of [2^256 - 1]. *)
Theorem omitted_bounds_default (w : world node) (a0 a1 privateKey marketId outcomeId value : string) :
  parseArguments [a0; a1; "buy"; privateKey; marketId; outcomeId; value] w
  = (Return (mkParsedArguments "buy" privateKey (Some marketId) (Some outcomeId) (Some value)
               (Some "0") None), w)
  /\ parseArguments [a0; a1; "sell"; privateKey; marketId; outcomeId; value] w
     = (Return (mkParsedArguments "sell" privateKey (Some marketId) (Some outcomeId) (Some value)
                  None
                  (Some "115792089237316195423570985008687907853269984665640564039457584007913129639935")),
        w)
  /\ BigInt "115792089237316195423570985008687907853269984665640564039457584007913129639935"
     = Ok (2 ^ 256 - 1).
Proof.
  split; [reflexivity|]. split; [|vm_compute; reflexivity].
  unfold parseArguments.
  cbn [skipn String.eqb Ascii.eqb Bool.eqb List.length Nat.ltb Nat.leb nth_error or_else].
  replace (toString MaxUint256)
    with "115792089237316195423570985008687907853269984665640564039457584007913129639935"%string
    by (vm_compute; reflexivity).
  reflexivity.
Qed.

(** The parser reads at most the first six arguments. *)
Lemma parseArguments_trailing (a0 a1 action privateKey marketId outcomeId value bound : string)
    (extra1 extra2 : list string) (w : world node) :
  parseArguments (a0 :: a1 :: action :: privateKey :: marketId :: outcomeId :: value :: bound :: extra1) w
  = parseArguments (a0 :: a1 :: action :: privateKey :: marketId :: outcomeId :: value :: bound :: extra2) w.
Proof. reflexivity. Qed.

(** C10. Two invocations that agree on action, private key, marketId,
    outcomeId, value and the shares bound, and differ only in what
    follows, are parsed alike and run alike: same outcome, same ledger,
    same trace.  This holds for [buy] and [sell] as for any action. *)
Theorem trailing_arguments_ignored
    (a0 a1 action privateKey marketId outcomeId value bound : string)
    (extra1 extra2 : list string) (w : world node) :
  parseArguments (a0 :: a1 :: action :: privateKey :: marketId :: outcomeId :: value :: bound :: extra1) w
  = parseArguments (a0 :: a1 :: action :: privateKey :: marketId :: outcomeId :: value :: bound :: extra2) w
  /\ program rpc sys
       (a0 :: a1 :: action :: privateKey :: marketId :: outcomeId :: value :: bound :: extra1) w
     = program rpc sys
         (a0 :: a1 :: action :: privateKey :: marketId :: outcomeId :: value :: bound :: extra2) w.
Proof.
  split; [apply parseArguments_trailing|].
  unfold program, bind. destruct (configuration sys w) as [[cfg|message|code] w']; [|reflexivity..].
  unfold main, try_catch, bind.
  now rewrite (parseArguments_trailing a0 a1 action privateKey marketId outcomeId value bound extra1 extra2 w').
Qed.

End Arguments.

Lemma arity_per_action_witness :
  parseArguments (node := unit) ["node"; "index.js"; "buy"; "0xkey"; "1"; "0"] (World tt [])
  = (Exit 1, World tt [Stderr "Buy action requires: marketId, outcomeId, value, and optionally minShares"])
  /\ parseArguments (node := unit) ["node"; "index.js"; "sell"; "0xkey"; "1"; "0"] (World tt [])
  = (Exit 1, World tt [Stderr "Sell action requires: marketId, outcomeId, value, and optionally maxShares"])
  /\ parseArguments (node := unit) ["node"; "index.js"; "claimWinnings"; "0xkey"] (World tt [])
  = (Exit 1, World tt [Stderr "ClaimWinnings action requires: marketId"])
  /\ parseArguments (node := unit) ["node"; "index.js"; "claimWinnings"; "0xkey"; "1"; "2"] (World tt [])
  = (Return (mkParsedArguments "claimWinnings" "0xkey" (Some "1") None None None None), World tt []).
Proof.
  destruct (arity_per_action (World tt []) "node" "index.js" "0xkey" ["1"; "0"]) as (Hbuy & Hsell & _).
  destruct (arity_per_action (World tt []) "node" "index.js" "0xkey" []) as (_ & _ & Hnone & _).
  destruct (arity_per_action (World tt []) "node" "index.js" "0xkey" ["1"; "2"]) as (_ & _ & _ & Hmore).
  split; [|split; [|split]].
  - apply Hbuy. simpl. lia.
  - apply Hsell. simpl. lia.
  - apply Hnone. simpl. lia.
  - apply Hmore. simpl. lia.
Defined.

(** C5 as stated fails: [claimWinnings] with two positional parameters
    after the private key is accepted; nothing is printed and the parser
    returns. *)
Lemma claimWinnings_accepts_two_parameters :
  parseArguments (node := unit) ["node"; "index.js"; "claimWinnings"; "0xkey"; "1"; "2"] (World tt [])
  = (Return (mkParsedArguments "claimWinnings" "0xkey" (Some "1") None None None None), World tt []).
Proof. reflexivity. Qed.

(** ** Unknown actions *)

Section UnknownAction.

Context {node : Type}.
Variable rpc : Rpc.api node.
Variable sys : system.

Local Open Scope list_scope.

Lemma parse_unknown (a0 a1 action : string) (rest : list string) (w : world node) :
  action <> "buy"%string -> action <> "sell"%string -> action <> "claimWinnings"%string ->
  triple (parseArguments (a0 :: a1 :: action :: rest)) w (fun o n evs =>
    o = Exit 1 /\ n = chain w /\ forallb console evs = true).
Proof.
  intros Hb Hs Hc. unfold parseArguments. cbn [skipn].
  destruct rest as [|privateKey rest]; [steps; auto|].
  apply String.eqb_neq in Hb, Hs, Hc. rewrite Hb, Hs, Hc.
  steps. auto.
Qed.

(** C9. When the action keyword is none of [buy], [sell] and
    [claimWinnings], the argument parser ends the process with status 1,
    and so does the whole program, having produced console output only:
    no file is read, no provider or contract is created, no request is
    sent, and the ledger is as it was. *)
Theorem unknown_action_exits_in_parser
    (a0 a1 action : string) (rest : list string) (w : world node) :
  action <> "buy"%string -> action <> "sell"%string -> action <> "claimWinnings"%string ->
  (exists evs,
     parseArguments (a0 :: a1 :: action :: rest) w = (Exit 1, World (chain w) (trace w ++ evs))
     /\ forallb console evs = true)
  /\ (exists evs,
        program rpc sys (a0 :: a1 :: action :: rest) w = (Exit 1, World (chain w) (trace w ++ evs))
        /\ forallb console evs = true).
Proof.
  intros Hb Hs Hc. split.
  - destruct (parse_unknown a0 a1 action rest w Hb Hs Hc) as (o & n & evs & E & -> & -> & H).
    eauto.
  - assert (T : triple (program rpc sys (a0 :: a1 :: action :: rest)) w (fun o n evs =>
                  o = Exit 1 /\ n = chain w /\ forallb console evs = true)).
    { unfold program. step.
      eapply triple_weaken; [apply configuration_spec|]. cbv beta.
      intros o n evs (-> & Hcon & [-> | (cfg & -> & -> & _)]); [auto|].
      unfold main. step. step.
      eapply triple_weaken; [apply parse_unknown; assumption|]. cbv beta.
      intros o n evs (-> & -> & H). auto. }
    destruct T as (o & n & evs & E & -> & -> & H). eauto.
Qed.

End UnknownAction.

Lemma unknown_action_exits_in_parser_witness :
  (exists evs,
     parseArguments ["node"; "index.js"; "redeem"; "0xkey"; "1"] (Stub.start 0 0)
     = (Exit 1, World (chain (Stub.start 0 0)) (trace (Stub.start 0 0) ++ evs))
     /\ forallb console evs = true)
  /\ (exists evs,
        program (Stub.node 95000 (Ok (0, []))) Stub.process
          ["node"; "index.js"; "redeem"; "0xkey"; "1"] (Stub.start 0 0)
        = (Exit 1, World (chain (Stub.start 0 0)) (trace (Stub.start 0 0) ++ evs))
        /\ forallb console evs = true).
Proof.
  apply (unknown_action_exits_in_parser (Stub.node 95000 (Ok (0, []))) Stub.process
           "node" "index.js" "redeem" ["0xkey"; "1"] (Stub.start 0 0)); discriminate.
Defined.

(** ** The allowance check *)

Section Allowance.

Context {node : Type}.
Variable rpc : Rpc.api node.

Local Open Scope list_scope.

Variable tokenContract : Contract.
Variable spenderAddress userAddress : string.
Variable amount : Z.
Variable tokenInfo : TokenInfo.

Let token : string := contractAddress tokenContract.
Let approve : Rpc.call :=
  callOf tokenContract "approve" [Rpc.Text spenderAddress; Rpc.Num amount].
Let check : M node unit :=
  checkAndApprove rpc tokenContract spenderAddress amount userAddress tokenInfo.

(** With enough allowance the check reads, reports and returns. *)
Lemma checkAndApprove_sufficient (w : world node) (a : Z) :
  Rpc.allowance rpc (chain w) token userAddress spenderAddress = Ok a ->
  amount <= a ->
  check w
  = (Return tt,
     World (chain w)
       (trace w ++
        [Stdout ("Checking " ++ symbol tokenInfo ++ " allowance...");
         Read token "allowance" [Rpc.Text userAddress; Rpc.Text spenderAddress];
         Stdout ("Current allowance: " ++ formatTokenAmount a (decimals tokenInfo)
                   ++ " " ++ symbol tokenInfo);
         Stdout ("Required amount: " ++ formatTokenAmount amount (decimals tokenInfo)
                   ++ " " ++ symbol tokenInfo);
         Stdout ("✅ Sufficient allowance already exists." ++ nl)])).
Proof.
  intros Ha Hle.
  unfold check, checkAndApprove, try_catch, bind, log, ask, emit. cbn [chain trace].
  fold token. rewrite Ha. cbn [await ret].
  destruct (Z.ltb_spec a amount) as [Hlt|_]; [lia|].
  cbn [chain trace]. rewrite <- !app_assoc. reflexivity.
Qed.

(** With too little allowance the gas of the approval is estimated
    next, and once the estimate and the fee data are there the approval
    is submitted. *)
Lemma checkAndApprove_insufficient (w : world node) (a : Z) :
  Rpc.allowance rpc (chain w) token userAddress spenderAddress = Ok a ->
  a < amount ->
  triple check w (fun o n evs =>
    In (EstimateGas approve (Rpc.estimateGas rpc (chain w) approve)) evs
    /\ forall g p,
         Rpc.estimateGas rpc (chain w) approve = Ok g ->
         Rpc.getFeeData rpc (chain w) = Ok p ->
         In (Send approve (Rpc.Overrides (bufferedGas g) p)
               (fst (Rpc.send rpc (chain w) approve (Rpc.Overrides (bufferedGas g) p)))) evs).
Proof.
  intros Ha Hlt. unfold check, checkAndApprove. fold token approve.
  steps. rewrite Ha. cbn [outcome_of]. steps.
  destruct (Z.ltb_spec a amount) as [_|Hge]; [|lia].
  steps.
  destruct (Rpc.estimateGas rpc (chain w) approve) as [g|msg] eqn:Eg; cbn [outcome_of].
  2:{ steps. split; [simpl; auto 10|]. intros g p Hg. discriminate Hg. }
  steps.
  destruct (Rpc.getFeeData rpc (chain w)) as [p|msg] eqn:Ep; cbn [outcome_of].
  2:{ steps. split; [simpl; auto 10|]. intros g' p' _ Hp. discriminate Hp. }
  run; (split; [simpl; auto 10|]); intros g' p' Hg' Hp';
    injection Hg' as <-; injection Hp' as <-;
    match goal with H : fst (Rpc.send _ _ _ _) = _ |- _ => rewrite H end;
    simpl; auto 20.
Qed.

(** C1. Given the allowance [a] that the token contract returns:
    an approval is submitted only if [a < amount]; if [a < amount] the
    gas of [approve(spender, amount)] is estimated, and with that
    estimate and the fee data answered the approval is submitted; if
    [a >= amount] nothing is submitted, the ledger is as it was, and the
    last line printed reports that the allowance suffices. *)
Theorem approval_iff_allowance_short (w : world node) (a : Z) :
  Rpc.allowance rpc (chain w) token userAddress spenderAddress = Ok a ->
  exists o n evs,
    check w = (o, World n (trace w ++ evs))
    /\ (existsb is_send evs = true -> a < amount)
    /\ (approval_submitted spenderAddress amount evs -> a < amount)
    /\ (a < amount ->
        In (EstimateGas approve (Rpc.estimateGas rpc (chain w) approve)) evs
        /\ forall g p,
             Rpc.estimateGas rpc (chain w) approve = Ok g ->
             Rpc.getFeeData rpc (chain w) = Ok p ->
             approval_submitted spenderAddress amount evs
             /\ In (Send approve (Rpc.Overrides (bufferedGas g) p)
                     (fst (Rpc.send rpc (chain w) approve (Rpc.Overrides (bufferedGas g) p))))
                   evs)
    /\ (amount <= a ->
        o = Return tt /\ n = chain w /\ existsb is_send evs = false
        /\ last evs (Stdout "") = Stdout ("✅ Sufficient allowance already exists." ++ nl)).
Proof.
  intros Ha. destruct (Z.lt_ge_cases a amount) as [Hlt|Hge].
  - destruct (checkAndApprove_insufficient w a Ha Hlt) as (o & n & evs & E & Hest & Hsend).
    exists o, n, evs. split; [exact E|].
    split; [intros _; exact Hlt|]. split; [intros _; exact Hlt|].
    split; [|intros Hle; lia]. intros _. split; [exact Hest|].
    intros g p Hg Hp. split; [|now apply Hsend].
    exists approve, (Rpc.Overrides (bufferedGas g) p),
      (fst (Rpc.send rpc (chain w) approve (Rpc.Overrides (bufferedGas g) p))).
    split; [now apply Hsend|]. split; reflexivity.
  - eexists _, _, _. split; [apply (checkAndApprove_sufficient w a Ha Hge)|].
    split; [discriminate|]. split.
    + intros (c & o & answer & Hin & _). simpl in Hin.
      repeat (destruct Hin as [Hin|Hin]; [discriminate Hin|]). destruct Hin.
    + split; [lia|]. intros _. split; [reflexivity|]. split; [reflexivity|]. split; reflexivity.
Qed.

End Allowance.

Lemma approval_iff_allowance_short_witness :
  (exists o n evs,
     checkAndApprove (Stub.node 46000 (Ok (0, []))) Stub.token "0xMarket" 10000000 "0xUser"
       Stub.usdc (Stub.start 100000000 5000000)
     = (o, World n (trace (Stub.start 100000000 5000000) ++ evs)%list)
     /\ approval_submitted "0xMarket" 10000000 evs
     /\ In (Send (callOf Stub.token "approve" [Rpc.Text "0xMarket"; Rpc.Num 10000000])
              (Rpc.Overrides 55200 (Some 500000000)) (Ok (Rpc.Response "0xdef123"))) evs)
  /\ (exists o n evs,
        checkAndApprove (Stub.node 46000 (Ok (0, []))) Stub.token "0xMarket" 10000000 "0xUser"
          Stub.usdc (Stub.start 100000000 10000000)
        = (o, World n (trace (Stub.start 100000000 10000000) ++ evs)%list)
        /\ o = Return tt
        /\ Stub.submitted n = O
        /\ existsb is_send evs = false
        /\ last evs (Stdout "") = Stdout ("✅ Sufficient allowance already exists." ++ nl)).
Proof.
  split.
  - destruct (approval_iff_allowance_short (Stub.node 46000 (Ok (0, []))) Stub.token
                "0xMarket" "0xUser" 10000000 Stub.usdc (Stub.start 100000000 5000000) 5000000
                eq_refl) as (o & n & evs & E & _ & _ & Hlt & _).
    exists o, n, evs. split; [exact E|].
    destruct Hlt as [_ Hsend]; [lia|].
    exact (Hsend 46000 (Some 500000000) eq_refl eq_refl).
  - destruct (approval_iff_allowance_short (Stub.node 46000 (Ok (0, []))) Stub.token
                "0xMarket" "0xUser" 10000000 Stub.usdc (Stub.start 100000000 10000000) 10000000
                eq_refl) as (o & n & evs & E & _ & _ & _ & Hge).
    exists o, n, evs. split; [exact E|].
    destruct Hge as (Ho & Hn & Hsend & Hlast); [lia|].
    split; [exact Ho|]. split; [rewrite Hn; reflexivity|]. split; assumption.
Defined.

(** ** Buying *)

Section Buy.

Context {node : Type}.
Variable rpc : Rpc.api node.
Variable sys : system.

Local Open Scope list_scope.

Lemma executeBuy_insufficient (cfg : config) (contract tokenContract : Contract)
    (tokenInfo : TokenInfo) (marketId outcomeId value minShares userAddress : string)
    (w : world node) (v b : Z) :
  BigInt value = Ok v ->
  Rpc.balanceOf rpc (chain w) (contractAddress tokenContract) userAddress = Ok b ->
  b < v ->
  let message :=
    ("Insufficient " ++ symbol tokenInfo ++ " balance. Required: "
       ++ formatTokenAmount v (decimals tokenInfo)
       ++ ", Available: " ++ formatTokenAmount b (decimals tokenInfo))%string in
  executeBuy rpc cfg contract tokenContract tokenInfo marketId outcomeId value minShares
    userAddress w
  = (Throw message,
     World (chain w)
       (trace w ++
        [Stdout "Executing buy:";
         Stdout ("  Market ID: " ++ marketId);
         Stdout ("  Outcome ID: " ++ outcomeId);
         Stdout ("  Value: " ++ formatTokenAmount v (decimals tokenInfo) ++ " " ++ symbol tokenInfo);
         Stdout ("  Min Shares: " ++ minShares ++ nl);
         Read (contractAddress tokenContract) "balanceOf" [Rpc.Text userAddress];
         Stdout (symbol tokenInfo ++ " balance: " ++ formatTokenAmount b (decimals tokenInfo)
                   ++ " " ++ symbol tokenInfo);
         Stderr ("Error executing buy: " ++ message)])).
Proof.
  intros Hv Hb Hlt message.
  unfold executeBuy, try_catch, bind, log, error, ask, throw, emit.
  cbn [chain trace]. rewrite Hv. cbn [await ret chain trace].
  rewrite Hb. cbn [await ret throw chain trace].
  destruct (Z.ltb_spec b v) as [_|Hge]; [|lia].
  cbn [chain trace]. rewrite <- !app_assoc. reflexivity.
Qed.

Lemma executeBuy_proceeds (cfg : config) (contract tokenContract : Contract)
    (tokenInfo : TokenInfo) (marketId outcomeId value minShares userAddress : string)
    (w : world node) (v b : Z) :
  BigInt value = Ok v ->
  Rpc.balanceOf rpc (chain w) (contractAddress tokenContract) userAddress = Ok b ->
  v <= b ->
  triple (executeBuy rpc cfg contract tokenContract tokenInfo marketId outcomeId value
            minShares userAddress) w (fun o n evs =>
    In (Read (contractAddress tokenContract) "allowance"
          [Rpc.Text userAddress; Rpc.Text (CONTRACT_ADDRESS cfg)]) evs).
Proof.
  intros Hv Hb Hle. unfold executeBuy. rewrite Hv.
  steps. rewrite Hb. cbn [outcome_of]. steps.
  destruct (Z.ltb_spec b v) as [Hlt|_]; [lia|].
  steps. unfold checkAndApprove.
  explore; simpl; auto 20.
Qed.

Lemma parse_buy (a0 a1 privateKey marketId outcomeId value : string) (rest : list string)
    (w : world node) :
  parseArguments (a0 :: a1 :: "buy" :: privateKey :: marketId :: outcomeId :: value :: rest) w
  = (Return (mkParsedArguments "buy" privateKey (Some marketId) (Some outcomeId) (Some value)
               (Some (or_else (nth_error rest 0) "0")) None), w).
Proof. reflexivity. Qed.

(** The whole run of a [buy] whose value exceeds the balance. *)
Lemma program_buy_insufficient
    (a0 a1 key market outcome amount : string) (rest : list string)
    (w : world node) (v b : Z) :
  BigInt amount = Ok v ->
  (forall token user,
     env sys "ERC20_TOKEN_ADDRESS" = Some token ->
     newWallet sys key = Ok user ->
     Rpc.balanceOf rpc (chain w) token user = Ok b) ->
  b < v ->
  triple (program rpc sys
            (a0 :: a1 :: "buy" :: key :: market :: outcome :: amount :: rest)) w
    (fun o n evs => o = Exit 1 /\ n = chain w /\ forallb preflight evs = true).
Proof.
  intros Hv Hbal Hlt. unfold program. step.
  eapply triple_weaken; [apply configuration_spec|]. cbv beta.
  intros o n evs (-> & Hcon & [-> | (cfg & -> & -> & _ & _ & Htoken)]);
    [auto using console_preflight|].
  unfold main. step. step.
  eapply triple_returns; [apply parse_buy|]. cbn [chain trace privateKey marketId].
  step. eapply triple_weaken; [apply readABI_spec|]. cbv beta.
  intros o n evs1 (-> & H1 & [-> | (abi & ->)]); [quiet|].
  step. eapply triple_weaken; [apply readERC20ABI_spec|]. cbv beta. cbn [chain trace].
  intros o n evs2 (-> & H2 & [-> | (erc20Abi & ->)]); [quiet|].
  step. eapply triple_weaken; [apply setupEthers_spec|]. cbv beta. cbn [chain trace].
  intros o n evs3 (-> & H3 & [-> | (user & -> & Huser)]); [quiet|].
  cbn [signer].
  step. eapply triple_weaken; [apply createContract_spec|]. cbv beta. cbn [chain trace].
  intros o n evs4 (-> & H4 & [-> | ->]); [quiet|].
  step. eapply triple_weaken; [apply createContract_spec|]. cbv beta. cbn [chain trace].
  intros o n evs5 (-> & H5 & [-> | ->]); [quiet|].
  step. step. step. step. step.
  eapply triple_weaken; [apply getTokenInfo_spec|]. cbv beta. cbn [chain trace].
  intros o n evs6 (-> & H6 & [(message & ->) | (tokenInfo & ->)]).
  { steps. quiet. }
  steps.
  assert (Hshares : forall w' : world node, chain w' = chain w ->
    triple (if truthy (Some market)
            then bind (getUserShares rpc (mkContract (CONTRACT_ADDRESS cfg) (mkWallet user))
                         tokenInfo (the (Some market)) (address (mkWallet user)))
                      (fun _ => log ("---" ++ nl))
            else ret tt) w'
      (fun o n evs => o = Return tt /\ n = chain w /\ forallb preflight evs = true)).
  { intros w' Hw'. destruct (truthy (Some market)); [|steps; auto].
    step. eapply triple_weaken; [apply getUserShares_spec|]. cbv beta.
    intros o n evs (-> & H & (position & ->)). steps. rewrite Hw'. quiet. }
  eapply triple_weaken; [apply Hshares; reflexivity|]. cbv beta. cbn [chain trace].
  intros o n evs7 (-> & -> & H7).
  step. unfold dispatch. cbn [action marketId outcomeId value minShares the address].
  eapply triple_equation;
    [apply (executeBuy_insufficient cfg _ _ tokenInfo market outcome amount _ user _ v b Hv);
     [cbn [chain contractAddress]; now apply Hbal | exact Hlt]|].
  cbn [chain trace]. steps. quiet.
Qed.

Lemma preflight_excludes (evs : list event) :
  forallb preflight evs = true ->
  forall e, In e evs ->
    match e with
    | Read _ method _ => method <> "allowance"%string
    | EstimateGas _ _ | GetFeeData _ | Send _ _ _ | Wait _ _ => False
    | _ => True
    end.
Proof.
  intros H e Hin. rewrite forallb_forall in H. specialize (H e Hin).
  destruct e; try exact I; try discriminate H.
  simpl in H. intros ->. discriminate H.
Qed.

(** C2. In [executeBuy], with the balance [b] that the token contract
    returns for the signer and the requested value [v]: if [b < v] the
    executor throws the insufficient-balance error right after the
    balance read, without reading the allowance, estimating gas or
    submitting anything; if [v <= b], equality included, it goes on to
    the allowance check.  And a whole run of [buy] from a ledger state
    where that balance is below the value exits with status 1 with no
    allowance read, no gas estimate and no submission in its trace, and
    leaves the ledger as it was. *)
Theorem buy_requires_balance :
  (forall (cfg : config) (contract tokenContract : Contract) (tokenInfo : TokenInfo)
          (market outcome amount bound userAddress : string) (w : world node) (v b : Z),
     BigInt amount = Ok v ->
     Rpc.balanceOf rpc (chain w) (contractAddress tokenContract) userAddress = Ok b ->
     (b < v ->
        executeBuy rpc cfg contract tokenContract tokenInfo market outcome amount bound
          userAddress w
        = (Throw ("Insufficient " ++ symbol tokenInfo ++ " balance. Required: "
                    ++ formatTokenAmount v (decimals tokenInfo)
                    ++ ", Available: " ++ formatTokenAmount b (decimals tokenInfo)),
           World (chain w)
             (trace w ++
              [Stdout "Executing buy:";
               Stdout ("  Market ID: " ++ market);
               Stdout ("  Outcome ID: " ++ outcome);
               Stdout ("  Value: " ++ formatTokenAmount v (decimals tokenInfo)
                         ++ " " ++ symbol tokenInfo);
               Stdout ("  Min Shares: " ++ bound ++ nl);
               Read (contractAddress tokenContract) "balanceOf" [Rpc.Text userAddress];
               Stdout (symbol tokenInfo ++ " balance: "
                         ++ formatTokenAmount b (decimals tokenInfo) ++ " " ++ symbol tokenInfo);
               Stderr ("Error executing buy: "
                         ++ ("Insufficient " ++ symbol tokenInfo ++ " balance. Required: "
                               ++ formatTokenAmount v (decimals tokenInfo)
                               ++ ", Available: " ++ formatTokenAmount b (decimals tokenInfo)))])))
     /\ (v <= b ->
         exists o n evs,
           executeBuy rpc cfg contract tokenContract tokenInfo market outcome amount bound
             userAddress w
           = (o, World n (trace w ++ evs))
           /\ In (Read (contractAddress tokenContract) "allowance"
                    [Rpc.Text userAddress; Rpc.Text (CONTRACT_ADDRESS cfg)]) evs))
  /\ (forall (a0 a1 key market outcome amount : string) (rest : list string)
             (w : world node) (v b : Z),
        BigInt amount = Ok v ->
        (forall token user,
           env sys "ERC20_TOKEN_ADDRESS" = Some token ->
           newWallet sys key = Ok user ->
           Rpc.balanceOf rpc (chain w) token user = Ok b) ->
        b < v ->
        exists evs,
          program rpc sys (a0 :: a1 :: "buy" :: key :: market :: outcome :: amount :: rest) w
          = (Exit 1, World (chain w) (trace w ++ evs))
          /\ forall e, In e evs ->
               match e with
               | Read _ method _ => method <> "allowance"%string
               | EstimateGas _ _ | GetFeeData _ | Send _ _ _ | Wait _ _ => False
               | _ => True
               end).
Proof.
  split.
  - intros cfg contract tokenContract tokenInfo market outcome amount bound userAddress
      w v b Hv Hb. split.
    + intros Hlt. now apply executeBuy_insufficient.
    + intros Hle. now apply (executeBuy_proceeds cfg _ _ _ _ _ amount _ _ w v b).
  - intros a0 a1 key market outcome amount rest w v b Hv Hbal Hlt.
    destruct (program_buy_insufficient a0 a1 key market outcome amount rest w v b Hv Hbal Hlt)
      as (o & n & evs & E & -> & -> & Hq).
    exists evs. split; [exact E|]. now apply preflight_excludes.
Qed.

End Buy.

Lemma buy_requires_balance_witness :
  (exists trace',
     executeBuy (Stub.node 95000 (Ok (0, [0; 0]))) (Config "url" "0xMarket" "0xToken")
       Stub.market Stub.token Stub.usdc "1" "0" "10" "0" "0xUser" (Stub.start 5 0)
     = (Throw "Insufficient USDC balance. Required: 0.00001, Available: 0.000005",
        World (chain (Stub.start 5 0)) trace'))
  /\ (exists o n evs,
        executeBuy (Stub.node 95000 (Ok (0, [0; 0]))) (Config "url" "0xMarket" "0xToken")
          Stub.market Stub.token Stub.usdc "1" "0" "10" "0" "0xUser" (Stub.start 10 0)
        = (o, World n (trace (Stub.start 10 0) ++ evs)%list)
        /\ In (Read "0xToken" "allowance" [Rpc.Text "0xUser"; Rpc.Text "0xMarket"]) evs)
  /\ (exists evs,
        program (Stub.node 95000 (Ok (0, [0; 0]))) Stub.process
          ["node"; "index.js"; "buy"; "0xkey"; "1"; "0"; "10"] (Stub.start 5 0)
        = (Exit 1, World (chain (Stub.start 5 0)) (trace (Stub.start 5 0) ++ evs)%list)
        /\ forall e, In e evs ->
             match e with
             | Read _ method _ => method <> "allowance"%string
             | EstimateGas _ _ | GetFeeData _ | Send _ _ _ | Wait _ _ => False
             | _ => True
             end).
Proof.
  destruct (buy_requires_balance (Stub.node 95000 (Ok (0, [0; 0]))) Stub.process)
    as [Hbuy Hrun].
  split; [|split].
  - destruct (Hbuy (Config "url" "0xMarket" "0xToken") Stub.market Stub.token Stub.usdc
                "1" "0" "10" "0" "0xUser" (Stub.start 5 0) 10 5 eq_refl eq_refl)%string
      as [Hlow _].
    eexists. rewrite Hlow by lia. reflexivity.
  - destruct (Hbuy (Config "url" "0xMarket" "0xToken") Stub.market Stub.token Stub.usdc
                "1" "0" "10" "0" "0xUser" (Stub.start 10 0) 10 10 eq_refl eq_refl)%string
      as [_ Hcovered].
    apply Hcovered. lia.
  - apply (Hrun "node" "index.js" "0xkey" "1" "0" "10" [] (Stub.start 5 0) 10 5)%string.
    + reflexivity.
    + intros token user _ _. reflexivity.
    + lia.
Defined.

(** ** Gas limits along a trace *)

Section GasPlan.

Local Open Scope list_scope.

Variable limit : Z -> Z.

Lemma planned_weaken (evs : list event) :
  forall seen seen', (forall e, In e seen -> In e seen') ->
    planned limit seen evs -> planned limit seen' evs.
Proof.
  induction evs as [|e evs IH]; intros seen seen' Hsub H; [exact I|].
  destruct H as [He H]. split.
  - destruct e; auto. destruct He as (g & Hin & Hg). exists g. auto.
  - apply (IH (e :: seen)); [|exact H].
    intros e' [->|Hin]; [now left|right; auto].
Qed.

Lemma planned_app (a b : list event) :
  forall seen, planned limit seen a -> (forall seen', planned limit seen' b) ->
    planned limit seen (a ++ b).
Proof.
  induction a as [|e a IH]; intros seen Ha Hb; [apply Hb|].
  destruct Ha as [He Ha]. split; [exact He|]. now apply IH.
Qed.

Lemma planned_preflight (evs : list event) :
  forallb preflight evs = true -> forall seen, planned limit seen evs.
Proof.
  induction evs as [|e evs IH]; intros H seen; [exact I|].
  simpl in H. apply andb_prop in H. destruct H as [He H].
  split; [destruct e; try exact I; discriminate He|]. now apply IH.
Qed.

Lemma planned_sound (evs : list event) :
  forall seen, planned limit seen evs ->
    forall pre c o answer post, evs = pre ++ Send c o answer :: post ->
      exists g, (In (EstimateGas c (Ok g)) pre \/ In (EstimateGas c (Ok g)) seen)
                /\ Rpc.gasLimit o = limit g.
Proof.
  induction evs as [|e evs IH]; intros seen H pre c o answer post E.
  - destruct pre; discriminate E.
  - destruct H as [He H]. destruct pre as [|e' pre].
    + injection E as -> _. destruct He as (g & Hin & Hg). exists g. auto.
    + injection E as <- E.
      destruct (IH (e :: seen) H pre c o answer post E) as (g & [Hin|Hin] & Hg).
      * exists g. split; [left; now right|exact Hg].
      * exists g. split; [|exact Hg]. destruct Hin as [<-|Hin]; [left; now left|now right].
Qed.

Lemma planned_gas_planned (evs : list event) :
  (forall seen, planned limit seen evs) -> gas_planned limit evs.
Proof.
  intros H pre c o answer post E.
  destruct (planned_sound evs [] (H []) pre c o answer post E) as (g & [Hin|[]] & Hg).
  exists g. auto.
Qed.

End GasPlan.

(** ** Every submission of the tool is planned *)

Section Planned.

Context {node : Type}.
Variable rpc : Rpc.api node.
Variable sys : system.

Local Open Scope list_scope.

Lemma well_planned_app (a b : list event) :
  well_planned a -> well_planned b -> well_planned (a ++ b).
Proof. intros Ha Hb seen. apply planned_app; [apply Ha|exact Hb]. Qed.

Lemma well_planned_preflight (evs : list event) :
  forallb preflight evs = true -> well_planned evs.
Proof. intros H seen. now apply planned_preflight. Qed.

Lemma well_planned_nil : well_planned [].
Proof. intros seen. exact I. Qed.

Lemma triple_bind_planned {A B} (m : M node A) (k : A -> M node B) (w : world node) :
  triple m w (fun _ _ evs => well_planned evs) ->
  (forall a w', triple (k a) w' (fun _ _ evs => well_planned evs)) ->
  triple (bind m k) w (fun _ _ evs => well_planned evs).
Proof.
  intros Hm Hk. apply triple_bind. eapply triple_weaken; [exact Hm|]. cbv beta.
  intros [a|message|code] n evs H; [|exact H..].
  eapply triple_weaken; [apply Hk|]. cbv beta.
  intros _ _ evs' H'. now apply well_planned_app.
Qed.

Lemma triple_try_catch_planned {A} (body : M node A) (handler : string -> M node A)
    (w : world node) :
  triple body w (fun _ _ evs => well_planned evs) ->
  (forall message w', triple (handler message) w' (fun _ _ evs => well_planned evs)) ->
  triple (try_catch body handler) w (fun _ _ evs => well_planned evs).
Proof.
  intros Hm Hk. apply triple_try_catch. eapply triple_weaken; [exact Hm|]. cbv beta.
  intros [a|message|code] n evs H; [exact H| |exact H].
  eapply triple_weaken; [apply Hk|]. cbv beta.
  intros _ _ evs' H'. now apply well_planned_app.
Qed.

(** Closing a path of an executor: the events are known one by one. *)
Ltac planned_path :=
  intros seen; cbn [app planned];
  repeat split;
  try (eexists; split; [cbn [In]; auto 20|reflexivity]).

Lemma checkAndApprove_planned (tokenContract : Contract) (spenderAddress : string)
    (amount : Z) (userAddress : string) (tokenInfo : TokenInfo) (w : world node) :
  triple (checkAndApprove rpc tokenContract spenderAddress amount userAddress tokenInfo) w
    (fun _ _ evs => well_planned evs).
Proof. unfold checkAndApprove. explore; planned_path. Qed.

Lemma executeSell_planned (contract : Contract) (tokenInfo : TokenInfo)
    (marketId outcomeId value maxShares : string) (w : world node) :
  triple (executeSell rpc contract tokenInfo marketId outcomeId value maxShares) w
    (fun _ _ evs => well_planned evs).
Proof. unfold executeSell. explore; planned_path. Qed.

Lemma executeClaimWinnings_planned (contract : Contract) (marketId : string) (w : world node) :
  triple (executeClaimWinnings rpc contract marketId) w (fun _ _ evs => well_planned evs).
Proof. unfold executeClaimWinnings. explore; planned_path. Qed.

Lemma executeBuy_planned (cfg : config) (contract tokenContract : Contract)
    (tokenInfo : TokenInfo) (marketId outcomeId value minShares userAddress : string)
    (w : world node) :
  triple (executeBuy rpc cfg contract tokenContract tokenInfo marketId outcomeId value
            minShares userAddress) w (fun _ _ evs => well_planned evs).
Proof. unfold executeBuy, checkAndApprove. explore; planned_path. Qed.

Lemma quiet_planned {A} (m : M node A) (w : world node) (R : outcome A -> Prop) :
  triple m w (fun o n evs => n = chain w /\ forallb preflight evs = true /\ R o) ->
  triple m w (fun _ _ evs => well_planned evs).
Proof.
  intros H. eapply triple_weaken; [exact H|]. cbv beta.
  intros o n evs (_ & Hq & _). now apply well_planned_preflight.
Qed.

Lemma silent_planned {A} (m : M node A) (w : world node) (R : outcome A -> list event -> Prop) :
  triple m w (fun o n evs => n = chain w /\ forallb console evs = true /\ R o evs) ->
  triple m w (fun _ _ evs => well_planned evs).
Proof.
  intros H. eapply triple_weaken; [exact H|]. cbv beta.
  intros o n evs (_ & Hq & _). now apply well_planned_preflight, console_preflight.
Qed.

Lemma dispatch_planned (cfg : config) (contract tokenContract : Contract)
    (tokenInfo : TokenInfo) (args : ParsedArguments) (signer : Wallet) (w : world node) :
  triple (dispatch rpc cfg contract tokenContract tokenInfo args signer) w
    (fun _ _ evs => well_planned evs).
Proof.
  unfold dispatch.
  destruct (action args =? "buy")%string; [apply executeBuy_planned|].
  destruct (action args =? "sell")%string; [apply executeSell_planned|].
  destruct (action args =? "claimWinnings")%string; [apply executeClaimWinnings_planned|].
  step. apply well_planned_nil.
Qed.

Lemma log_planned (text : string) (w : world node) :
  triple (log text) w (fun _ _ evs => well_planned evs).
Proof. step. now apply well_planned_preflight. Qed.

Lemma error_planned (text : string) (w : world node) :
  triple (error text) w (fun _ _ evs => well_planned evs).
Proof. step. now apply well_planned_preflight. Qed.

Lemma reporter_planned (contract : Contract) (tokenInfo : TokenInfo)
    (marketId userAddress : string) (w : world node) :
  triple (getUserShares rpc contract tokenInfo marketId userAddress) w
    (fun _ _ evs => well_planned evs).
Proof. eapply quiet_planned. apply getUserShares_spec. Qed.

Lemma main_planned (cfg : config) (argv : list string) (w : world node) :
  triple (main rpc sys cfg argv) w (fun _ _ evs => well_planned evs).
Proof.
  unfold main. apply triple_try_catch_planned.
  2:{ intros message w'. repeat (apply triple_bind_planned; [apply error_planned|intros _ ?]).
      step. apply well_planned_nil. }
  apply triple_bind_planned; [eapply silent_planned; apply parseArguments_spec|intros args w1].
  apply triple_bind_planned; [eapply quiet_planned; apply readABI_spec|intros abi w2].
  apply triple_bind_planned; [eapply quiet_planned; apply readERC20ABI_spec|intros erc20Abi w3].
  apply triple_bind_planned; [eapply quiet_planned; apply setupEthers_spec|intros setup w4].
  apply triple_bind_planned; [eapply quiet_planned; apply createContract_spec|intros contract w5].
  apply triple_bind_planned; [eapply quiet_planned; apply createContract_spec|intros tokenContract w6].
  apply triple_bind_planned; [apply log_planned|intros _ w7].
  apply triple_bind_planned; [apply log_planned|intros _ w8].
  apply triple_bind_planned; [eapply quiet_planned; apply getTokenInfo_spec|intros tokenInfo w9].
  apply triple_bind_planned; [apply log_planned|intros _ w10].
  apply triple_bind_planned; [apply log_planned|intros _ w11].
  apply triple_bind_planned.
  { destruct (truthy (marketId args)); [|step; apply well_planned_nil].
    apply triple_bind_planned; [apply reporter_planned|intros _ ?; apply log_planned]. }
  intros _ w12.
  apply triple_bind_planned; [apply dispatch_planned|intros receipt w13].
  apply triple_bind_planned; [apply log_planned|intros _ w14].
  apply triple_bind_planned.
  { destruct (truthy (marketId args)); [|step; apply well_planned_nil].
    apply triple_bind_planned; [apply reporter_planned|intros _ ?]. step. apply well_planned_nil. }
  intros _ w15. apply log_planned.
Qed.

Lemma program_planned (argv : list string) (w : world node) :
  triple (program rpc sys argv) w (fun _ _ evs => well_planned evs).
Proof.
  unfold program.
  apply triple_bind_planned; [eapply silent_planned; apply configuration_spec|intros cfg w'].
  apply main_planned.
Qed.

Lemma bufferedGas_div (g : Z) : 0 <= g -> bufferedGas g = (g * 12) / 10.
Proof.
  intros Hg. unfold bufferedGas. rewrite Z.quot_div_nonneg by lia.
  replace (g * 120) with ((g * 12) * 10) by lia. change 100 with (10 * 10).
  now rewrite Z.div_mul_cancel_r by lia.
Qed.

Lemma floor_div (g : Z) : Qfloor (inject_Z g * (12 # 10))%Q = (g * 12) / 10.
Proof. reflexivity. Qed.

Lemma ceilGas_div (g : Z) : ceilGas g = - ((- (g * 12)) / 10).
Proof. reflexivity. Qed.

(** C3, amended. Every transaction the program submits, the approval as
    well as [buy], [sell] and [claimWinnings], comes after the gas
    estimate of the same call, and its gas limit is
    [gasEstimate * 120 / 100] in bigint arithmetic: for an estimate
    that is not negative, the floor of 1.2 times the estimate, which lies
    at most one below the ceiling and equals it exactly when the estimate
    is a multiple of five. *)
Theorem gas_limit_is_buffered_estimate (argv : list string) (w : world node) :
  (exists evs,
     trace (snd (program rpc sys argv w)) = trace w ++ evs
     /\ gas_planned bufferedGas evs)
  /\ forall g, 0 <= g ->
       bufferedGas g = Qfloor (inject_Z g * (12 # 10))%Q
       /\ ceilGas g - 1 <= bufferedGas g <= ceilGas g
       /\ (bufferedGas g = ceilGas g <-> g mod 5 = 0).
Proof.
  split.
  - destruct (triple_run _ _ _ (program_planned argv w)) as (evs & E & H).
    exists evs. split; [exact E|]. now apply planned_gas_planned.
  - intros g Hg. rewrite floor_div, ceilGas_div, (bufferedGas_div g Hg).
    split; [reflexivity|].
    pose proof (Z.div_mod (g * 12) 10 ltac:(lia)) as D1.
    pose proof (Z.mod_pos_bound (g * 12) 10 ltac:(lia)) as B1.
    pose proof (Z.div_mod (- (g * 12)) 10 ltac:(lia)) as D2.
    pose proof (Z.mod_pos_bound (- (g * 12)) 10 ltac:(lia)) as B2.
    pose proof (Z.div_mod g 5 ltac:(lia)) as D3.
    pose proof (Z.mod_pos_bound g 5 ltac:(lia)) as B3.
    split; [lia|]. split; intros H; lia.
Qed.

End Planned.

Lemma gas_planned_In (limit : Z -> Z) (evs : list event) :
  gas_planned limit evs ->
  forall c o answer, In (Send c o answer) evs ->
    exists g, In (EstimateGas c (Ok g)) evs /\ Rpc.gasLimit o = limit g.
Proof.
  intros H c o answer Hin. apply in_split in Hin. destruct Hin as (pre & post & E).
  destruct (H pre c o answer post E) as (g & Hg & Hl).
  exists g. split; [|exact Hl]. rewrite E. apply in_or_app. now left.
Qed.

Lemma gas_limit_is_buffered_estimate_witness :
  (exists evs,
     trace (snd (program (Stub.node 21001 (Ok (0, []))) Stub.process
                   ["node"; "index.js"; "claimWinnings"; "0xkey"; "1"] (Stub.start 0 0)))
     = (trace (Stub.start 0 0) ++ evs)%list
     /\ gas_planned bufferedGas evs)
  /\ bufferedGas 21001 = Qfloor (inject_Z 21001 * (12 # 10))%Q
  /\ ceilGas 21001 - 1 <= bufferedGas 21001 <= ceilGas 21001
  /\ (bufferedGas 21001 = ceilGas 21001 <-> 21001 mod 5 = 0).
Proof.
  destruct (gas_limit_is_buffered_estimate (Stub.node 21001 (Ok (0, []))) Stub.process
              ["node"; "index.js"; "claimWinnings"; "0xkey"; "1"]%string (Stub.start 0 0))
    as [Hrun Hnum].
  split; [exact Hrun|]. apply Hnum. lia.
Defined.

(** C3 as stated fails: with a gas estimate of 21001 the [claimWinnings]
    transaction is submitted with gas limit 25201, while
    [ceil(21001 * 1.2)] is 25202. *)
Lemma gas_limit_is_not_the_ceiling :
  ~ gas_planned ceilGas
      (trace (snd (program (Stub.node 21001 (Ok (0, []))) Stub.process
                     ["node"; "index.js"; "claimWinnings"; "0xkey"; "1"] (Stub.start 0 0)))).
Proof.
  intros H.
  destruct (gas_planned_In _ _ H
              (Rpc.Call "0xUser" "0xMarket" "claimWinnings" [Rpc.Text "1"])
              (Rpc.Overrides 25201 (Some 500000000))
              (Ok (Rpc.Response "0xabcdef"))) as (g & Hg & Hl).
  - vm_compute. repeat (try (left; reflexivity); right).
  - vm_compute in Hg.
    repeat (destruct Hg as [Hg|Hg]; [try discriminate Hg|]); [|destruct Hg].
    injection Hg as <-. vm_compute in Hl. discriminate Hl.
Qed.

(** ** Selling *)

Section Sell.

Context {node : Type}.
Variable rpc : Rpc.api node.

Local Open Scope list_scope.

Ltac each_event :=
  cbn [app]; repeat (apply Forall_cons; [first [exact I | reflexivity | now left | now right]|]);
  apply Forall_nil.

Lemma executeSell_events (contract : Contract) (tokenInfo : TokenInfo)
    (market outcome amount bound : string) (w : world node) :
  triple (executeSell rpc contract tokenInfo market outcome amount bound) w (fun o n evs =>
    Forall (of_call (callOf contract "sell"
                       [Rpc.Text market; Rpc.Text outcome; Rpc.Text amount; Rpc.Text bound])) evs).
Proof. unfold executeSell. explore; each_event. Qed.

Lemma executeSell_submits (contract : Contract) (tokenInfo : TokenInfo)
    (market outcome amount bound : string) (w : world node) (v : Z) :
  let sell := callOf contract "sell"
                [Rpc.Text market; Rpc.Text outcome; Rpc.Text amount; Rpc.Text bound] in
  BigInt amount = Ok v ->
  triple (executeSell rpc contract tokenInfo market outcome amount bound) w (fun o n evs =>
    In (EstimateGas sell (Rpc.estimateGas rpc (chain w) sell)) evs
    /\ forall g p,
         Rpc.estimateGas rpc (chain w) sell = Ok g ->
         Rpc.getFeeData rpc (chain w) = Ok p ->
         In (Send sell (Rpc.Overrides (bufferedGas g) p)
               (fst (Rpc.send rpc (chain w) sell (Rpc.Overrides (bufferedGas g) p)))) evs).
Proof.
  intros sell Hv. unfold executeSell. fold sell. rewrite Hv. steps.
  destruct (Rpc.estimateGas rpc (chain w) sell) as [g|msg] eqn:Eg; cbn [outcome_of].
  2:{ steps. split; [simpl; auto 10|]. intros g p Hg. discriminate Hg. }
  steps.
  destruct (Rpc.getFeeData rpc (chain w)) as [p|msg] eqn:Ep; cbn [outcome_of].
  2:{ steps. split; [simpl; auto 10|]. intros g' p' _ Hp. discriminate Hp. }
  run; (split; [simpl; auto 10|]); intros g' p' Hg' Hp';
    injection Hg' as <-; injection Hp' as <-;
    match goal with H : fst (Rpc.send _ _ _ _) = _ |- _ => rewrite H end;
    simpl; auto 20.
Qed.

Lemma executeBuy_events (cfg : config) (contract tokenContract : Contract)
    (tokenInfo : TokenInfo) (market outcome amount bound userAddress : string)
    (w : world node) :
  triple (executeBuy rpc cfg contract tokenContract tokenInfo market outcome amount bound
            userAddress) w (fun o n evs =>
    Forall (calls_satisfy (fun c =>
              c = callOf contract "buy"
                    [Rpc.Text market; Rpc.Text outcome; Rpc.Text bound; Rpc.Text amount]
              \/ Rpc.method c = "approve"%string)) evs).
Proof. unfold executeBuy, checkAndApprove. explore; each_event. Qed.

(** C8. Whatever the node answers, [executeSell] produces console
    output, the gas estimate and the submission of
    [sell(marketId, outcomeId, value, maxShares)] with the arguments in
    this order, fee data and the wait, and nothing else: it reads no
    balance and no allowance and approves nothing.  The estimate of that
    call is requested as soon as the value is a bigint, and the call is
    submitted once estimate and fee data are there.  In [executeBuy]
    every estimated or submitted call is the approval or
    [buy(marketId, outcomeId, minShares, value)], the bound before the
    value. *)
Theorem sell_has_no_prechecks (contract : Contract) (tokenInfo : TokenInfo)
    (market outcome amount bound : string) (w : world node) :
  let sell := callOf contract "sell"
                [Rpc.Text market; Rpc.Text outcome; Rpc.Text amount; Rpc.Text bound] in
  (exists o n evs,
     executeSell rpc contract tokenInfo market outcome amount bound w
     = (o, World n (trace w ++ evs))
     /\ Forall (of_call sell) evs
     /\ (forall v, BigInt amount = Ok v ->
           In (EstimateGas sell (Rpc.estimateGas rpc (chain w) sell)) evs
           /\ forall g p,
                Rpc.estimateGas rpc (chain w) sell = Ok g ->
                Rpc.getFeeData rpc (chain w) = Ok p ->
                In (Send sell (Rpc.Overrides (bufferedGas g) p)
                      (fst (Rpc.send rpc (chain w) sell (Rpc.Overrides (bufferedGas g) p))))
                   evs))
  /\ (forall (cfg : config) (tokenContract : Contract) (userAddress : string),
      exists o n evs,
        executeBuy rpc cfg contract tokenContract tokenInfo market outcome amount bound
          userAddress w
        = (o, World n (trace w ++ evs))
        /\ Forall (calls_satisfy (fun c =>
                     c = callOf contract "buy"
                           [Rpc.Text market; Rpc.Text outcome; Rpc.Text bound; Rpc.Text amount]
                     \/ Rpc.method c = "approve"%string)) evs).
Proof.
  intros sell. split.
  - destruct (executeSell_events contract tokenInfo market outcome amount bound w)
      as (o & n & evs & E & Hall).
    exists o, n, evs. split; [exact E|]. split; [exact Hall|].
    intros v Hv.
    destruct (executeSell_submits contract tokenInfo market outcome amount bound w v Hv)
      as (o' & n' & evs' & E' & H').
    rewrite E in E'. injection E' as _ _ Eevs. apply app_inv_head in Eevs. subst evs'.
    exact H'.
  - intros cfg tokenContract userAddress.
    apply (executeBuy_events cfg contract tokenContract tokenInfo market outcome amount bound
             userAddress w).
Qed.

End Sell.

Lemma sell_has_no_prechecks_witness :
  exists o n evs,
    executeSell (Stub.node 95000 (Ok (0, []))) Stub.market Stub.usdc "1" "0" "5000000" "7"
      (Stub.start 0 0)
    = (o, World n (trace (Stub.start 0 0) ++ evs)%list)
    /\ In (Send (Rpc.Call "0xUser" "0xMarket" "sell"
                   [Rpc.Text "1"; Rpc.Text "0"; Rpc.Text "5000000"; Rpc.Text "7"])
             (Rpc.Overrides 114000 (Some 500000000)) (Ok (Rpc.Response "0xabcdef"))) evs.
Proof.
  destruct (sell_has_no_prechecks (Stub.node 95000 (Ok (0, []))) Stub.market Stub.usdc
              "1" "0" "5000000" "7" (Stub.start 0 0))
    as [(o & n & evs & E & _ & H) _].
  exists o, n, evs. split; [exact E|].
  destruct (H 5000000 eq_refl) as [_ Hsend].
  exact (Hsend 95000 (Some 500000000) eq_refl eq_refl).
Defined.

(** ** Runs in which everything but the position read is answered *)

Section Completion.

Context {node : Type}.
Variable rpc : Rpc.api node.
Variable sys : system.

Local Open Scope list_scope.

Hypothesis Hrpc : answering rpc.

Lemma answered (n : node) (message : string) :
  (forall a, Rpc.getBalance rpc n a = Err message -> False)
  /\ (forall t, Rpc.decimals rpc n t = Err message -> False)
  /\ (forall t, Rpc.symbol rpc n t = Err message -> False)
  /\ (forall t, Rpc.name rpc n t = Err message -> False)
  /\ (forall t u s, Rpc.allowance rpc n t u s = Err message -> False)
  /\ (forall t u, Rpc.balanceOf rpc n t u = Err message -> False)
  /\ (forall c, Rpc.estimateGas rpc n c = Err message -> False)
  /\ (Rpc.getFeeData rpc n = Err message -> False)
  /\ (forall c o, fst (Rpc.send rpc n c o) = Err message -> False)
  /\ (forall tx, fst (Rpc.wait rpc n tx) = Err message -> False).
Proof. exact (Hrpc n message). Qed.

(** An error branch contradicts the assumption on the node. *)
Ltac unanswered :=
  exfalso;
  match goal with
  | E : ?r = Err ?message |- _ =>
      lazymatch r with
      | Rpc.getBalance _ ?n _ => exact (proj1 (answered n message) _ E)
      | Rpc.decimals _ ?n _ => exact (proj1 (proj2 (answered n message)) _ E)
      | Rpc.symbol _ ?n _ => exact (proj1 (proj2 (proj2 (answered n message))) _ E)
      | Rpc.name _ ?n _ => exact (proj1 (proj2 (proj2 (proj2 (answered n message)))) _ E)
      | Rpc.allowance _ ?n _ _ _ =>
          exact (proj1 (proj2 (proj2 (proj2 (proj2 (answered n message))))) _ _ _ E)
      | Rpc.balanceOf _ ?n _ _ =>
          exact (proj1 (proj2 (proj2 (proj2 (proj2 (proj2 (answered n message)))))) _ _ E)
      | Rpc.estimateGas _ ?n _ =>
          exact (proj1 (proj2 (proj2 (proj2 (proj2 (proj2 (proj2 (answered n message))))))) _ E)
      | Rpc.getFeeData _ ?n =>
          exact (proj1 (proj2 (proj2 (proj2 (proj2 (proj2 (proj2 (proj2
                   (answered n message)))))))) E)
      | fst (Rpc.send _ ?n _ _) =>
          exact (proj1 (proj2 (proj2 (proj2 (proj2 (proj2 (proj2 (proj2 (proj2
                   (answered n message))))))))) _ _ E)
      | fst (Rpc.wait _ ?n _) =>
          exact (proj2 (proj2 (proj2 (proj2 (proj2 (proj2 (proj2 (proj2 (proj2
                   (answered n message))))))))) _ E)
      end
  end.

Lemma sent_app_l (a b : list event) : sent a -> sent (a ++ b).
Proof. unfold sent. rewrite existsb_app. intros ->. reflexivity. Qed.

Lemma sent_app_r (a b : list event) : sent b -> sent (a ++ b).
Proof. unfold sent. rewrite existsb_app. intros ->. apply orb_true_r. Qed.

Lemma executeClaimWinnings_completes (contract : Contract) (market : string) (w : world node) :
  triple (executeClaimWinnings rpc contract market) w (fun o n evs =>
    (exists receipt, o = Return receipt) /\ sent evs).
Proof.
  unfold executeClaimWinnings. run; try unanswered.
  split; [eauto|reflexivity].
Qed.

Lemma executeSell_completes (contract : Contract) (tokenInfo : TokenInfo)
    (market outcome amount bound : string) (w : world node) (v : Z) :
  BigInt amount = Ok v ->
  triple (executeSell rpc contract tokenInfo market outcome amount bound) w (fun o n evs =>
    (exists receipt, o = Return receipt) /\ sent evs).
Proof.
  intros Hv. unfold executeSell. rewrite Hv. run; try unanswered.
  split; [eauto|reflexivity].
Qed.

Lemma executeBuy_completes (cfg : config) (contract tokenContract : Contract)
    (tokenInfo : TokenInfo) (market outcome amount bound userAddress : string)
    (w : world node) (v : Z) :
  BigInt amount = Ok v ->
  (forall t u b, Rpc.balanceOf rpc (chain w) t u = Ok b -> v <= b) ->
  triple (executeBuy rpc cfg contract tokenContract tokenInfo market outcome amount bound
            userAddress) w (fun o n evs =>
    (exists receipt, o = Return receipt) /\ sent evs).
Proof.
  intros Hv Hfunds. unfold executeBuy, checkAndApprove. rewrite Hv.
  run; try unanswered.
  match goal with E : Rpc.balanceOf _ _ _ _ = Ok ?b |- _ =>
    pose proof (Hfunds _ _ _ E) as Hle; destruct (Z.ltb_spec b v) as [Hlt|_]; [lia|]
  end.
  run; try unanswered.
  branch; run; try unanswered; (split; [eauto|reflexivity]).
Qed.

Variable key : string.
Hypothesis Hsys : ready sys key.

Lemma required_present (name example s : string) (w : world node) :
  env sys name = Some s -> s <> ""%string ->
  required sys name example w = (Return s, w).
Proof.
  intros E Hs. unfold required. rewrite E.
  destruct (String.eqb_spec s ""); [contradiction|reflexivity].
Qed.

Lemma configuration_present (w : world node) :
  exists cfg, configuration sys w = (Return cfg, w).
Proof.
  destruct Hsys as ((s1 & E1 & N1) & (s2 & E2 & N2) & (s3 & E3 & N3) & _).
  exists (Config s1 s2 s3). unfold configuration, bind.
  rewrite (required_present _ _ s1 w E1 N1), (required_present _ _ s2 w E2 N2),
    (required_present _ _ s3 w E3 N3).
  reflexivity.
Qed.

Ltac unready :=
  exfalso;
  destruct Hsys as (_ & _ & _ & Hjson & Hprovider & Hwallet & Hcontract);
  match goal with
  | E : readJson _ _ = Err _ |- _ => exact (Hjson _ _ E)
  | E : newProvider _ _ = Err _ |- _ => exact (Hprovider _ _ E)
  | E : newWallet _ _ = Err _ |- _ => exact (Hwallet _ E)
  | E : newContract _ _ _ = Err _ |- _ => exact (Hcontract _ _ _ E)
  end.

Lemma ends_last {A} (l : list A) (x d : A) :
  (exists pre, l = pre ++ [x]) -> last l d = x.
Proof. intros (pre & ->). apply last_last. Qed.

Lemma ends_one {A} (x : A) : exists pre, [x] = pre ++ [x].
Proof. now exists []. Qed.

Lemma ends_app {A} (a l : list A) (x : A) :
  (exists pre, l = pre ++ [x]) -> exists pre, a ++ l = pre ++ [x].
Proof. intros (pre & ->). exists (a ++ pre). now rewrite app_assoc. Qed.

(** The run completes once the action does, whatever the position
    reads answer. *)
Lemma main_completes (cfg : config) (argv : list string) (args : ParsedArguments)
    (w : world node) :
  (forall w' : world node, parseArguments argv w' = (Return args, w')) ->
  privateKey args = key ->
  (forall contract tokenContract tokenInfo signer w',
     chain w' = chain w ->
     triple (dispatch rpc cfg contract tokenContract tokenInfo args signer) w' (fun o n evs =>
       (exists receipt, o = Return receipt) /\ sent evs)) ->
  triple (main rpc sys cfg argv) w (fun o n evs =>
    o = Return tt
    /\ last evs (Stdout "") = Stdout (nl ++ "Action completed successfully! ✅")
    /\ sent evs).
Proof.
  intros Hparse Hkey Hdispatch. unfold main. step. step.
  eapply triple_returns; [apply Hparse|]. cbn [chain trace]. rewrite Hkey.
  unfold readABI, readERC20ABI, setupEthers, createContract, getTokenInfo, getUserShares.
  explore; try unanswered; try unready;
    (eapply triple_weaken; [apply Hdispatch; reflexivity|]; cbv beta;
     intros o n evs [(receipt & ->) Hsent];
     explore;
     (split; [reflexivity|]; split;
      [apply ends_last; repeat first [apply ends_one | apply ends_app]
      |cbn [app]; unfold sent in *; cbn [existsb is_send orb];
       rewrite existsb_app, Hsent; reflexivity])).
Qed.

Lemma program_completes (argv : list string) (args : ParsedArguments) (w : world node) :
  (forall w' : world node, parseArguments argv w' = (Return args, w')) ->
  privateKey args = key ->
  (forall cfg contract tokenContract tokenInfo signer w',
     chain w' = chain w ->
     triple (dispatch rpc cfg contract tokenContract tokenInfo args signer) w' (fun o n evs =>
       (exists receipt, o = Return receipt) /\ sent evs)) ->
  completes (program rpc sys argv) w.
Proof.
  intros Hparse Hkey Hdispatch.
  destruct (configuration_present w) as (cfg & Ecfg).
  destruct (main_completes cfg argv args w Hparse Hkey (Hdispatch cfg))
    as (o & n & evs & E & -> & Hlast & Hsent).
  assert (Erun : program rpc sys argv w = (Return tt, World n (trace w ++ evs))).
  { unfold program, bind. rewrite Ecfg. exact E. }
  exists n, evs. rewrite Erun. auto.
Qed.

Lemma getUserShares_failure (contract : Contract) (tokenInfo : TokenInfo)
    (market user : string) (w : world node) (message : string) :
  Rpc.getUserMarketShares rpc (chain w) (contractAddress contract) market user = Err message ->
  getUserShares rpc contract tokenInfo market user w
  = (Return None,
     World (chain w)
       (trace w ++
        [Read (contractAddress contract) "getUserMarketShares" [Rpc.Text market; Rpc.Text user];
         Stderr ("Error getting user shares: " ++ message)])).
Proof.
  intros E. unfold getUserShares, try_catch, bind, ask, error, ret, emit.
  cbn [chain trace]. rewrite E. cbn [await throw chain trace].
  rewrite <- app_assoc. reflexivity.
Qed.

End Completion.

(** C7. When the position read fails, [getUserShares] logs the error and
    returns [null] without throwing, with the ledger untouched.  And on
    a node that answers every other request, with the configuration,
    the ABI documents and the key in order, a [sell], a [claimWinnings]
    and a [buy] whose value the balance covers run to the end of [main] whatever the
    position reads answer, failures included: the transaction is
    submitted, the success line is the last thing printed, and the
    process ends with status 0. *)
Theorem position_read_failure_is_not_fatal {node : Type} (rpc : Rpc.api node) (sys : system) :
  (forall (contract : Contract) (tokenInfo : TokenInfo) (market user : string)
          (w : world node) (message : string),
     Rpc.getUserMarketShares rpc (chain w) (contractAddress contract) market user
     = Err message ->
     getUserShares rpc contract tokenInfo market user w
     = (Return None,
        World (chain w)
          (trace w ++
           [Read (contractAddress contract) "getUserMarketShares"
              [Rpc.Text market; Rpc.Text user];
            Stderr ("Error getting user shares: " ++ message)])%list))
  /\ (answering rpc ->
      forall (key : string), ready sys key ->
      forall (a0 a1 market outcome amount : string) (rest : list string)
             (w : world node) (v : Z),
        BigInt amount = Ok v ->
        completes (program rpc sys (a0 :: a1 :: "sell" :: key :: market :: outcome :: amount :: rest)) w
        /\ completes (program rpc sys (a0 :: a1 :: "claimWinnings" :: key :: market :: rest)) w
        /\ ((forall t u b, Rpc.balanceOf rpc (chain w) t u = Ok b -> v <= b) ->
            completes (program rpc sys
                         (a0 :: a1 :: "buy" :: key :: market :: outcome :: amount :: rest)) w)).
Proof.
  split; [intros; now apply getUserShares_failure|].
  intros Hrpc key Hsys a0 a1 market outcome amount rest w v Hv.
  split; [|split].
  - eapply (program_completes rpc sys Hrpc key Hsys); [reflexivity|reflexivity|].
    intros cfg contract tokenContract tokenInfo signer w' _. unfold dispatch.
    cbn [action marketId outcomeId value maxShares the].
    change ("sell" =? "buy")%string with false. change ("sell" =? "sell")%string with true.
    cbv iota. now apply (executeSell_completes rpc Hrpc _ _ _ _ amount _ _ v).
  - eapply (program_completes rpc sys Hrpc key Hsys); [reflexivity|reflexivity|].
    intros cfg contract tokenContract tokenInfo signer w' _. unfold dispatch.
    cbn [action marketId the].
    change ("claimWinnings" =? "buy")%string with false.
    change ("claimWinnings" =? "sell")%string with false.
    change ("claimWinnings" =? "claimWinnings")%string with true.
    cbv iota. now apply executeClaimWinnings_completes.
  - intros Hfunds.
    eapply (program_completes rpc sys Hrpc key Hsys); [reflexivity|reflexivity|].
    intros cfg contract tokenContract tokenInfo signer w' Hw'. unfold dispatch.
    cbn [action marketId outcomeId value minShares the].
    change ("buy" =? "buy")%string with true.
    cbv iota. apply (executeBuy_completes rpc Hrpc _ _ _ _ _ _ amount _ _ _ v); [exact Hv|].
    rewrite Hw'. exact Hfunds.
Qed.

Lemma stub_answering (gas : Z) (position : result (Z * list Z)) :
  answering (Stub.node gas position).
Proof. intros n message. repeat split; intros; discriminate. Qed.

Lemma stub_ready (key : string) : ready Stub.process key.
Proof.
  split; [|split; [|split]].
  - eexists. split; [reflexivity|discriminate].
  - eexists. split; [reflexivity|discriminate].
  - eexists. split; [reflexivity|discriminate].
  - repeat split; intros; discriminate.
Qed.

Lemma position_read_failure_is_not_fatal_witness :
  getUserShares (Stub.node 95000 (Err "execution reverted")) Stub.market Stub.usdc "1" "0xUser"
    (Stub.start 100000000 0)
  = (Return None,
     World (chain (Stub.start 100000000 0))
       [Read "0xMarket" "getUserMarketShares" [Rpc.Text "1"; Rpc.Text "0xUser"];
        Stderr "Error getting user shares: execution reverted"])
  /\ completes (program (Stub.node 95000 (Err "execution reverted")) Stub.process
                  ["node"; "index.js"; "buy"; "0xkey"; "1"; "0"; "10000000"])
       (Stub.start 100000000 0).
Proof.
  destruct (position_read_failure_is_not_fatal
              (Stub.node 95000 (Err "execution reverted")) Stub.process) as [Hnull Hrun].
  split.
  - apply (Hnull Stub.market Stub.usdc "1" "0xUser" (Stub.start 100000000 0)
             "execution reverted")%string.
    reflexivity.
  - apply (Hrun (stub_answering _ _) "0xkey"%string (stub_ready _)
             "node" "index.js" "1" "0" "10000000" [] (Stub.start 100000000 0) 10000000
             eq_refl)%string.
    intros t u b Hb. injection Hb as <-. lia.
Defined.

(* ================================================================== *)
(** * Further properties of [src/index.ts]                             *)
(* ================================================================== *)

(** ** Bigints as text *)

(** X15. What [toString] prints for a bigint, [BigInt] reads back as
    the same bigint. *)
Theorem bigint_text_roundtrip (v : Z) : BigInt (toString v) = Ok v.
Proof.
  unfold BigInt, toString. rewrite list_ascii_of_string_of_list_ascii.
  unfold bigint_chars. destruct (Z.ltb_spec v 0) as [Hneg|Hpos].
  - destruct (nat_digits_spec (- v)) as (Hd & Hv & Hne); [lia|].
    change ("-"%char :: nat_digits (- v))
      with ((if true then ["-"%char] else []) ++ nat_digits (- v))%list.
    rewrite string_to_bigint_digits by assumption. rewrite Hv. f_equal. lia.
  - destruct (nat_digits_spec v Hpos) as (Hd & Hv & Hne).
    change (nat_digits v) with ((if false then ["-"%char] else []) ++ nat_digits v)%list.
    rewrite string_to_bigint_digits by assumption. now rewrite Hv.
Qed.

(** ** The configuration constants *)

Section Configuration.

Context {node : Type}.
Variable rpc : Rpc.api node.
Variable sys : system.

Local Open Scope list_scope.

Lemma required_unset (name example : string) (w : world node) :
  unset sys name ->
  required sys name example w
  = (Exit 1, World (chain w) (trace w ++ missing_report name example)).
Proof.
  intros [E|E]; unfold required; rewrite E; cbn [String.eqb];
    unfold bind, error, exit, emit; cbn [chain trace];
    rewrite <- app_assoc; reflexivity.
Qed.

Lemma required_provided (name example : string) (w : world node) :
  provided sys name -> exists s, required sys name example w = (Return s, w).
Proof.
  intros (s & E & Hs). exists s. unfold required. rewrite E.
  destruct (String.eqb_spec s ""); [contradiction|reflexivity].
Qed.

(** X1. The three configuration variables are resolved in the order
    [RPC_URL], [CONTRACT_ADDRESS], [ERC20_TOKEN_ADDRESS] before the
    command line is looked at: for every argument vector, the first one
    that is absent or empty ends the process with status 1 after the
    two lines that name it, and nothing else happens. *)
Theorem missing_configuration_exits (argv : list string) (w : world node) :
  (unset sys "RPC_URL" ->
     program rpc sys argv w
     = (Exit 1, World (chain w)
                  (trace w ++ missing_report "RPC_URL" "https://your-rpc-endpoint.com")))
  /\ (provided sys "RPC_URL" -> unset sys "CONTRACT_ADDRESS" ->
      program rpc sys argv w
      = (Exit 1, World (chain w)
                   (trace w ++ missing_report "CONTRACT_ADDRESS" "0xYourContractAddress...")))
  /\ (provided sys "RPC_URL" -> provided sys "CONTRACT_ADDRESS" ->
      unset sys "ERC20_TOKEN_ADDRESS" ->
      program rpc sys argv w
      = (Exit 1, World (chain w)
                   (trace w ++ missing_report "ERC20_TOKEN_ADDRESS" "0xYourTokenAddress..."))).
Proof.
  split; [|split].
  - intros H1. unfold program, configuration, bind.
    now rewrite (required_unset _ _ w H1).
  - intros H1 H2. unfold program, configuration, bind.
    destruct (required_provided "RPC_URL" "https://your-rpc-endpoint.com" w H1) as (s1 & ->).
    now rewrite (required_unset _ _ w H2).
  - intros H1 H2 H3. unfold program, configuration, bind.
    destruct (required_provided "RPC_URL" "https://your-rpc-endpoint.com" w H1) as (s1 & ->).
    destruct (required_provided "CONTRACT_ADDRESS" "0xYourContractAddress..." w H2) as (s2 & ->).
    now rewrite (required_unset _ _ w H3).
Qed.

End Configuration.

Lemma missing_configuration_exits_witness :
  program (Stub.node 95000 (Ok (0, []))) Fixture.bare
    ["node"; "index.js"; "buy"; "0xkey"; "1"; "0"; "10"] (Stub.start 0 0)
  = (Exit 1, World (chain (Stub.start 0 0))
               (missing_report "RPC_URL" "https://your-rpc-endpoint.com"))
  /\ program (Stub.node 95000 (Ok (0, []))) Fixture.marketless
       ["node"; "index.js"; "frobnicate"] (Stub.start 0 0)
     = (Exit 1, World (chain (Stub.start 0 0))
                  (missing_report "CONTRACT_ADDRESS" "0xYourContractAddress..."))
  /\ program (Stub.node 95000 (Ok (0, []))) Fixture.tokenless [] (Stub.start 0 0)
     = (Exit 1, World (chain (Stub.start 0 0))
                  (missing_report "ERC20_TOKEN_ADDRESS" "0xYourTokenAddress...")).
Proof.
  split; [|split].
  - apply (missing_configuration_exits (Stub.node 95000 (Ok (0, []))) Fixture.bare).
    left. reflexivity.
  - apply (missing_configuration_exits (Stub.node 95000 (Ok (0, []))) Fixture.marketless).
    + eexists. split; [reflexivity|discriminate].
    + left. reflexivity.
  - apply (missing_configuration_exits (Stub.node 95000 (Ok (0, []))) Fixture.tokenless).
    + eexists. split; [reflexivity|discriminate].
    + eexists. split; [reflexivity|discriminate].
    + right. reflexivity.
Defined.

(** ** What the parser accepts *)

Section Parser.

Context {node : Type}.
Variable rpc : Rpc.api node.
Variable sys : system.

Local Open Scope list_scope.

(** The parser either exits with status 1 after console output, or
    returns the action and the key it found at the head of the
    arguments, having printed nothing. *)
Lemma parseArguments_head (argv : list string) (w : world node) :
  triple (parseArguments (node := node) argv) w (fun o n evs =>
    n = chain w /\ forallb console evs = true
    /\ ((o = Exit 1 /\ evs <> [])
        \/ exists args rest,
             o = Return args /\ evs = []
             /\ skipn 2 argv = action args :: privateKey args :: rest
             /\ In (action args) ["buy"; "sell"; "claimWinnings"]%string)).
Proof.
  unfold parseArguments.
  destruct (skipn 2 argv) as [|a [|key rest]];
    [steps; repeat split; left; split; [reflexivity|discriminate]..|].
  destruct (String.eqb_spec a "buy") as [->|_].
  { destruct (_ <? _)%nat; steps; repeat split;
      [left; split; [reflexivity|discriminate]|right; eexists _, rest; cbn; auto 10]. }
  destruct (String.eqb_spec a "sell") as [->|_].
  { destruct (_ <? _)%nat; steps; repeat split;
      [left; split; [reflexivity|discriminate]|right; eexists _, rest; cbn; auto 10]. }
  destruct (String.eqb_spec a "claimWinnings") as [->|_].
  { destruct (_ <? _)%nat; steps; repeat split;
      [left; split; [reflexivity|discriminate]|right; eexists _, rest; cbn; auto 10]. }
  steps. repeat split. left. split; [reflexivity|discriminate].
Qed.

(** X2. The parser returns exactly on the argument lists that hold one
    of the three actions, a private key and at least three ([buy],
    [sell]) or one ([claimWinnings]) further parameters.  What it
    returns then names one of the three actions and has every field
    that [main] reads for this action; the world is as it was.  On every
    other argument list it prints to the console and ends the process
    with status 1. *)
Theorem parser_accepts_invocations (argv : list string) (w : world node) :
  (invocation (skipn 2 argv) ->
     exists args,
       parseArguments argv w = (Return args, w)
       /\ In (action args) ["buy"; "sell"; "claimWinnings"]%string
       /\ marketId args <> None
       /\ (action args <> "claimWinnings"%string ->
             outcomeId args <> None /\ value args <> None)
       /\ (action args = "buy"%string -> minShares args <> None)
       /\ (action args = "sell"%string -> maxShares args <> None))
  /\ (~ invocation (skipn 2 argv) ->
      exists evs,
        parseArguments argv w = (Exit 1, World (chain w) (trace w ++ evs))
        /\ evs <> [] /\ forallb console evs = true).
Proof.
  split.
  - intros (a & key & rest & E & Hshape). unfold parseArguments. rewrite E.
    destruct Hshape as [[[-> | ->] Hlen] | [-> Hlen]].
    + destruct rest as [|m [|o [|v rest]]]; try (simpl in Hlen; lia).
      eexists. split; [reflexivity|]. cbn.
      repeat split; auto; try discriminate.
    + destruct rest as [|m [|o [|v rest]]]; try (simpl in Hlen; lia).
      eexists. split; [reflexivity|]. cbn.
      repeat split; auto; try discriminate.
    + destruct rest as [|m rest]; try (simpl in Hlen; lia).
      eexists. split; [reflexivity|]. cbn.
      repeat split; auto; try discriminate; intros H; try contradiction; discriminate H.
  - intros Hno.
    assert (Hexit : forall text : string,
      exists evs, (bind (error text) (fun _ => exit 1) : M node ParsedArguments) w
                  = (Exit 1, World (chain w) (trace w ++ evs))
                  /\ evs <> [] /\ forallb console evs = true).
    { intros text. exists [Stderr text]. repeat split. discriminate. }
    unfold parseArguments.
    destruct (skipn 2 argv) as [|a [|key rest]] eqn:E.
    + exists [Stdout usage]. repeat split. discriminate.
    + exists [Stdout usage]. repeat split. discriminate.
    + destruct (String.eqb_spec a "buy") as [->|_].
      { destruct (Nat.ltb_spec (List.length ("buy"%string :: key :: rest)) 5) as [_|Hlen];
          [apply Hexit|].
        exfalso. apply Hno. exists "buy"%string, key, rest. simpl in Hlen.
        split; [reflexivity|]. left. split; [now left|lia]. }
      destruct (String.eqb_spec a "sell") as [->|_].
      { destruct (Nat.ltb_spec (List.length ("sell"%string :: key :: rest)) 5) as [_|Hlen];
          [apply Hexit|].
        exfalso. apply Hno. exists "sell"%string, key, rest. simpl in Hlen.
        split; [reflexivity|]. left. split; [now right|lia]. }
      destruct (String.eqb_spec a "claimWinnings") as [->|_].
      { destruct (Nat.ltb_spec (List.length ("claimWinnings"%string :: key :: rest)) 3)
          as [_|Hlen]; [apply Hexit|].
        exfalso. apply Hno. exists "claimWinnings"%string, key, rest. simpl in Hlen.
        split; [reflexivity|]. right. split; [reflexivity|lia]. }
      exists [Stderr ("Unknown action: " ++ a); Stderr "Valid actions: buy, sell, claimWinnings"].
      split; [|split; [discriminate|reflexivity]].
      unfold bind, error, exit, emit. cbn [chain trace]. now rewrite <- app_assoc.
Qed.

(** X3. A sixth argument that is not empty is the bound, verbatim; an
    empty one counts as absent, so that [buy] falls back to [0] and
    [sell] to the decimal string of [2^256 - 1]. *)
Theorem bound_is_kept_unless_empty
    (a0 a1 key market outcome amount bound : string) (extra : list string) (w : world node) :
  (bound <> ""%string ->
     parseArguments (a0 :: a1 :: "buy" :: key :: market :: outcome :: amount :: bound :: extra) w
     = (Return (mkParsedArguments "buy" key (Some market) (Some outcome) (Some amount)
                  (Some bound) None), w)
     /\ parseArguments (a0 :: a1 :: "sell" :: key :: market :: outcome :: amount :: bound :: extra) w
        = (Return (mkParsedArguments "sell" key (Some market) (Some outcome) (Some amount)
                     None (Some bound)), w))
  /\ parseArguments (a0 :: a1 :: "buy" :: key :: market :: outcome :: amount :: "" :: extra) w
     = (Return (mkParsedArguments "buy" key (Some market) (Some outcome) (Some amount)
                  (Some "0") None), w)
  /\ parseArguments (a0 :: a1 :: "sell" :: key :: market :: outcome :: amount :: "" :: extra) w
     = (Return (mkParsedArguments "sell" key (Some market) (Some outcome) (Some amount)
                  None (Some (toString MaxUint256))), w).
Proof.
  split; [|split; reflexivity].
  intros Hb. unfold parseArguments.
  cbn [skipn nth_error or_else]. apply String.eqb_neq in Hb.
  split.
  - change (("buy" =? "buy")%string) with true. cbv iota.
    change (List.length ("buy"%string :: key :: market :: outcome :: amount :: bound :: extra) <? 5)%nat
      with false. cbv iota. now rewrite Hb.
  - change (("sell" =? "buy")%string) with false. change (("sell" =? "sell")%string) with true.
    cbv iota.
    change (List.length ("sell"%string :: key :: market :: outcome :: amount :: bound :: extra) <? 5)%nat
      with false. cbv iota. now rewrite Hb.
Qed.

(** X4. With fewer than two arguments, a lone action keyword included,
    the usage text goes to standard output and the process ends with
    status 1: [main] prints no failure banner and touches nothing. *)
Theorem usage_on_short_command_line (cfg : config) (argv : list string) (w : world node) :
  (List.length (skipn 2 argv) < 2)%nat ->
  parseArguments argv w = (Exit 1, World (chain w) (trace w ++ [Stdout usage]))
  /\ main rpc sys cfg argv w = (Exit 1, World (chain w) (trace w ++ [Stdout usage])).
Proof.
  intros Hlen.
  assert (E : parseArguments argv w = (Exit 1, World (chain w) (trace w ++ [Stdout usage]))).
  { unfold parseArguments.
    destruct (skipn 2 argv) as [|a [|key rest]]; [reflexivity|reflexivity|simpl in Hlen; lia]. }
  split; [exact E|]. unfold main, try_catch, bind. now rewrite E.
Qed.

End Parser.

Lemma parser_accepts_invocations_witness :
  (exists args,
     parseArguments (node := unit) ["node"; "index.js"; "claimWinnings"; "0xkey"; "7"] (World tt [])
     = (Return args, World tt [])
     /\ marketId args <> None)
  /\ (exists evs,
        parseArguments (node := unit) ["node"; "index.js"; "sell"; "0xkey"; "7"] (World tt [])
        = (Exit 1, World tt evs) /\ evs <> []).
Proof.
  split.
  - destruct (proj1 (parser_accepts_invocations
                       ["node"; "index.js"; "claimWinnings"; "0xkey"; "7"]%string (World tt [])))
      as (args & E & _ & Hm & _).
    + exists "claimWinnings"%string, "0xkey"%string, ["7"%string].
      split; [reflexivity|]. right. split; [reflexivity|simpl; lia].
    + exists args. auto.
  - destruct (proj2 (parser_accepts_invocations
                       ["node"; "index.js"; "sell"; "0xkey"; "7"]%string (World tt [])))
      as (evs & E & Hne & _).
    + intros (a & key & rest & E & Hshape). injection E as <- <- <-.
      destruct Hshape as [[_ Hlen] | [Hcw _]]; [simpl in Hlen; lia|discriminate Hcw].
    + exists evs. auto.
Defined.

Lemma bound_is_kept_unless_empty_witness :
  parseArguments (node := unit) ["node"; "index.js"; "buy"; "0xkey"; "1"; "0"; "10"; "9"; "x"]
    (World tt [])
  = (Return (mkParsedArguments "buy" "0xkey" (Some "1") (Some "0") (Some "10") (Some "9") None),
     World tt []).
Proof.
  apply (bound_is_kept_unless_empty "node" "index.js" "0xkey" "1" "0" "10" "9" ["x"] (World tt []))%string.
  discriminate.
Defined.

Lemma usage_on_short_command_line_witness :
  main (Stub.node 95000 (Ok (0, []))) Stub.process
    (Config "https://rpc.sepolia.linea.build" "0xMarket" "0xToken")
    ["node"; "index.js"; "buy"] (Stub.start 0 0)
  = (Exit 1, World (chain (Stub.start 0 0)) [Stdout usage]).
Proof.
  apply (usage_on_short_command_line (Stub.node 95000 (Ok (0, []))) Stub.process
           (Config "https://rpc.sepolia.linea.build" "0xMarket" "0xToken")
           ["node"; "index.js"; "buy"]%string (Stub.start 0 0)).
  simpl. lia.
Defined.

(** ** Failures inside the executors *)

Section ExecutorFailures.

Context {node : Type}.
Variable rpc : Rpc.api node.

Local Open Scope list_scope.

(** X9. When the node refuses the gas estimate of [sell] or of
    [claimWinnings], the executor logs and rethrows the node's message
    unchanged; nothing was submitted and the ledger is as it was. *)
Theorem failed_estimate_submits_nothing (contract : Contract) (tokenInfo : TokenInfo)
    (market outcome amount bound : string) (w : world node) (message : string) :
  let sell := callOf contract "sell"
                [Rpc.Text market; Rpc.Text outcome; Rpc.Text amount; Rpc.Text bound] in
  let claim := callOf contract "claimWinnings" [Rpc.Text market] in
  (forall v, BigInt amount = Ok v ->
     Rpc.estimateGas rpc (chain w) sell = Err message ->
     executeSell rpc contract tokenInfo market outcome amount bound w
     = (Throw message,
        World (chain w)
          (trace w ++
           [Stdout "Executing sell:";
            Stdout ("  Market ID: " ++ market);
            Stdout ("  Outcome ID: " ++ outcome);
            Stdout ("  Value: " ++ formatTokenAmount v (decimals tokenInfo)
                      ++ " " ++ symbol tokenInfo);
            Stdout ("  Max Shares: " ++ bound ++ nl);
            EstimateGas sell (Err message);
            Stderr ("Error executing sell: " ++ message)])))
  /\ (Rpc.estimateGas rpc (chain w) claim = Err message ->
      executeClaimWinnings rpc contract market w
      = (Throw message,
         World (chain w)
           (trace w ++
            [Stdout "Executing claimWinnings:";
             Stdout ("  Market ID: " ++ market ++ nl);
             EstimateGas claim (Err message);
             Stderr ("Error executing claimWinnings: " ++ message)]))).
Proof.
  intros sell claim. split.
  - intros v Hv He.
    unfold executeSell, try_catch, bind, log, error, estimate, throw, emit.
    fold sell. rewrite Hv. cbn [await ret chain trace]. rewrite He.
    cbn [await throw chain trace]. rewrite <- !app_assoc. reflexivity.
  - intros He.
    unfold executeClaimWinnings, try_catch, bind, log, error, estimate, throw, emit.
    fold claim. cbn [chain trace]. rewrite He.
    cbn [await throw chain trace]. rewrite <- !app_assoc. reflexivity.
Qed.


(** X8. [getTokenInfo] always issues the three reads [decimals],
    [symbol], [name], in this order and without touching the ledger.
    When the three are answered it returns exactly the answers; when
    one fails it logs the failure and throws the message of a failed
    read. *)
Theorem token_info_joins_three_reads (tokenContract : Contract) (w : world node) :
  let token := contractAddress tokenContract in
  (forall d s n,
     Rpc.decimals rpc (chain w) token = Ok d ->
     Rpc.symbol rpc (chain w) token = Ok s ->
     Rpc.name rpc (chain w) token = Ok n ->
     getTokenInfo rpc tokenContract w
     = (Return (mkTokenInfo d s n), World (chain w) (trace w ++ metadata_reads token)))
  /\ ((exists message,
         Rpc.decimals rpc (chain w) token = Err message
         \/ Rpc.symbol rpc (chain w) token = Err message
         \/ Rpc.name rpc (chain w) token = Err message) ->
      exists message,
        getTokenInfo rpc tokenContract w
        = (Throw message,
           World (chain w)
             (trace w ++ metadata_reads token
                ++ [Stderr ("Error getting token info: " ++ message)]))
        /\ (Rpc.decimals rpc (chain w) token = Err message
            \/ Rpc.symbol rpc (chain w) token = Err message
            \/ Rpc.name rpc (chain w) token = Err message)).
Proof.
  intros token. split.
  - intros d s n Hd Hs Hn.
    unfold getTokenInfo, try_catch, bind, ask, emit. fold token. cbn [chain trace].
    rewrite Hd, Hs, Hn. cbn [await ret]. unfold metadata_reads.
    rewrite <- !app_assoc. reflexivity.
  - intros Hfail.
    unfold getTokenInfo, try_catch, bind, ask, error, throw, emit. fold token.
    cbn [chain trace]. unfold metadata_reads.
    destruct (Rpc.decimals rpc (chain w) token) as [d|m1] eqn:Hd; cbn [await ret throw].
    2:{ exists m1. split; [cbn [chain trace]; rewrite <- !app_assoc; reflexivity|auto]. }
    destruct (Rpc.symbol rpc (chain w) token) as [s|m2] eqn:Hs; cbn [await ret throw].
    2:{ exists m2. split; [cbn [chain trace]; rewrite <- !app_assoc; reflexivity|auto]. }
    destruct (Rpc.name rpc (chain w) token) as [n|m3] eqn:Hn; cbn [await ret throw].
    2:{ exists m3. split; [cbn [chain trace]; rewrite <- !app_assoc; reflexivity|auto]. }
    destruct Hfail as (m & [H|[H|H]]); discriminate H.
Qed.

End ExecutorFailures.

Lemma failed_estimate_submits_nothing_witness :
  executeSell (Fixture.node false (Err "execution reverted")) Stub.market Stub.usdc
    "1" "0" "5000000" "7" (Stub.start 0 0)
  = (Throw "execution reverted",
     World (chain (Stub.start 0 0))
       [Stdout "Executing sell:"; Stdout "  Market ID: 1"; Stdout "  Outcome ID: 0";
        Stdout "  Value: 5.0 USDC"; Stdout ("  Max Shares: 7" ++ nl);
        EstimateGas (Rpc.Call "0xUser" "0xMarket" "sell"
                       [Rpc.Text "1"; Rpc.Text "0"; Rpc.Text "5000000"; Rpc.Text "7"])
          (Err "execution reverted");
        Stderr "Error executing sell: execution reverted"])
  /\ executeClaimWinnings (Fixture.node false (Err "execution reverted")) Stub.market "1"
       (Stub.start 0 0)
     = (Throw "execution reverted",
        World (chain (Stub.start 0 0))
          [Stdout "Executing claimWinnings:"; Stdout ("  Market ID: 1" ++ nl);
           EstimateGas (Rpc.Call "0xUser" "0xMarket" "claimWinnings" [Rpc.Text "1"])
             (Err "execution reverted");
           Stderr "Error executing claimWinnings: execution reverted"]).
Proof.
  destruct (failed_estimate_submits_nothing (Fixture.node false (Err "execution reverted"))
              Stub.market Stub.usdc "1" "0" "5000000" "7" (Stub.start 0 0) "execution reverted")
    as [Hsell Hclaim].
  split.
  - apply (Hsell 5000000); reflexivity.
  - apply Hclaim. reflexivity.
Defined.


Lemma token_info_joins_three_reads_witness :
  getTokenInfo (Stub.node 95000 (Ok (0, []))) Stub.token (Stub.start 0 0)
  = (Return Stub.usdc, World (chain (Stub.start 0 0)) (metadata_reads "0xToken"))
  /\ exists message,
       getTokenInfo (Fixture.node true (Ok 95000)) Stub.token (Stub.start 0 0)
       = (Throw message,
          World (chain (Stub.start 0 0))
            (metadata_reads "0xToken" ++ [Stderr ("Error getting token info: " ++ message)])%list).
Proof.
  split.
  - apply (token_info_joins_three_reads (Stub.node 95000 (Ok (0, []))) Stub.token
             (Stub.start 0 0)); reflexivity.
  - destruct (proj2 (token_info_joins_three_reads (Fixture.node true (Ok 95000)) Stub.token
                       (Stub.start 0 0))) as (message & E & _).
    + exists "call revert exception"%string. right. left. reflexivity.
    + exists message. exact E.
Defined.

(** ** The order of approval and purchase *)

(** Both branches of a conditional, with the test recorded. *)
Ltac branch_on :=
  lazymatch goal with
  | |- triple (if ?b then _ else _) _ _ => let T := fresh "T" in destruct b eqn:T
  end.

Ltac explore_on := repeat (step || answer || branch_on).

Section ApprovalFirst.

Context {node : Type}.
Variable rpc : Rpc.api node.

Local Open Scope list_scope.

(** X11. In [executeBuy] the gas of [buy] is estimated, and so [buy] is
    submitted, only after the value was read as a bigint [v], the
    allowance [a] was read, and either [v <= a] or an approval of
    exactly [v] for the market contract was submitted and its inclusion
    awaited with success. *)
Theorem buy_follows_the_approval (cfg : config) (contract tokenContract : Contract)
    (tokenInfo : TokenInfo) (market outcome amount bound userAddress : string)
    (w : world node) :
  let buy := callOf contract "buy"
               [Rpc.Text market; Rpc.Text outcome; Rpc.Text bound; Rpc.Text amount] in
  exists o n evs,
    executeBuy rpc cfg contract tokenContract tokenInfo market outcome amount bound
      userAddress w
    = (o, World n (trace w ++ evs))
    /\ forall answer, In (EstimateGas buy answer) evs ->
         exists v a,
           BigInt amount = Ok v
           /\ Rpc.allowance rpc (chain w) (contractAddress tokenContract) userAddress
                (CONTRACT_ADDRESS cfg) = Ok a
           /\ (v <= a
               \/ exists overrides tx receipt,
                    In (Send (callOf tokenContract "approve"
                                [Rpc.Text (CONTRACT_ADDRESS cfg); Rpc.Num v])
                          overrides (Ok tx)) evs
                    /\ In (Wait tx (Ok receipt)) evs).
Proof.
  intros buy.
  assert (Hother : forall v answer answer',
    EstimateGas (callOf tokenContract "approve" [Rpc.Text (CONTRACT_ADDRESS cfg); Rpc.Num v])
      answer = EstimateGas buy answer' -> False).
  { intros v answer answer' H. unfold buy, callOf in H. congruence. }
  enough (T : triple (executeBuy rpc cfg contract tokenContract tokenInfo market outcome amount
                        bound userAddress) w (fun o n evs =>
            forall answer, In (EstimateGas buy answer) evs ->
              exists v a,
                BigInt amount = Ok v
                /\ Rpc.allowance rpc (chain w) (contractAddress tokenContract) userAddress
                     (CONTRACT_ADDRESS cfg) = Ok a
                /\ (v <= a
                    \/ exists overrides tx receipt,
                         In (Send (callOf tokenContract "approve"
                                     [Rpc.Text (CONTRACT_ADDRESS cfg); Rpc.Num v])
                               overrides (Ok tx)) evs
                         /\ In (Wait tx (Ok receipt)) evs))) by exact T.
  unfold executeBuy, checkAndApprove. fold buy.
  explore_on; intros answer Hin; cbn [app In] in Hin;
    repeat (destruct Hin as [Hin|Hin];
            [first [discriminate Hin | exfalso; exact (Hother _ _ _ Hin) | idtac]|]);
    try contradiction;
    (eexists _, _; split; [reflexivity|]; split; [reflexivity|]);
    first [ left; apply Z.ltb_ge; assumption
          | right; eexists _, _, _; split; cbn [app In]; auto 30 ].
Qed.

End ApprovalFirst.

(** ** What a whole run can do *)

Section Summary.

Context {node : Type}.
Variable rpc : Rpc.api node.
Variable sys : system.

Local Open Scope list_scope.

Lemma sends_app (a b : list event) : sends (a ++ b) = (sends a + sends b)%nat.
Proof. unfold sends. now rewrite filter_app, length_app. Qed.

Lemma preflight_sends (evs : list event) : forallb preflight evs = true -> sends evs = O.
Proof.
  induction evs as [|e evs IH]; [reflexivity|].
  simpl. intros H. apply andb_prop in H. destruct H as [He H].
  unfold sends in *. simpl. destruct e; try discriminate He; now apply IH.
Qed.

Lemma suffix_one {A} (x : A) : exists pre, [x] = pre ++ [x].
Proof. now exists []. Qed.

Lemma suffix_app {A} (a l : list A) (x : A) :
  (exists pre, l = pre ++ [x]) -> exists pre, a ++ l = pre ++ [x].
Proof. intros (pre & ->). exists (a ++ pre). now rewrite app_assoc. Qed.

(** Counting the submissions of a path whose events are known. *)
Ltac count_path :=
  unfold footprint, sends; cbn [app filter is_send List.length];
  repeat split; intros; first [discriminate | lia | reflexivity | idtac].

Lemma executeSell_summary (contract : Contract) (tokenInfo : TokenInfo)
    (market outcome amount bound : string) (w : world node) :
  triple (executeSell rpc contract tokenInfo market outcome amount bound) w (fun o n evs =>
    (forall code, o <> Exit code) /\ footprint 1 (chain w) n evs).
Proof. unfold executeSell. explore; count_path. Qed.

Lemma executeClaimWinnings_summary (contract : Contract) (market : string) (w : world node) :
  triple (executeClaimWinnings rpc contract market) w (fun o n evs =>
    (forall code, o <> Exit code) /\ footprint 1 (chain w) n evs).
Proof. unfold executeClaimWinnings. explore; count_path. Qed.

Lemma executeBuy_summary (cfg : config) (contract tokenContract : Contract)
    (tokenInfo : TokenInfo) (market outcome amount bound userAddress : string)
    (w : world node) :
  triple (executeBuy rpc cfg contract tokenContract tokenInfo market outcome amount bound
            userAddress) w (fun o n evs =>
    (forall code, o <> Exit code) /\ footprint 2 (chain w) n evs).
Proof. unfold executeBuy, checkAndApprove. explore; count_path. Qed.

Lemma dispatch_summary (cfg : config) (contract tokenContract : Contract)
    (tokenInfo : TokenInfo) (args : ParsedArguments) (signer : Wallet) (w : world node) :
  triple (dispatch rpc cfg contract tokenContract tokenInfo args signer) w (fun o n evs =>
    (forall code, o <> Exit code)
    /\ footprint 2 (chain w) n evs
    /\ (action args <> "buy"%string -> (sends evs <= 1)%nat)).
Proof.
  unfold dispatch.
  destruct (String.eqb_spec (action args) "buy") as [E|Hn].
  { eapply triple_weaken; [apply executeBuy_summary|]. cbv beta.
    intros o n evs (H1 & H2). repeat split; try apply H2; auto. contradiction. }
  destruct (action args =? "sell")%string.
  { eapply triple_weaken; [apply executeSell_summary|]. cbv beta.
    intros o n evs (H1 & H2 & H3). unfold footprint. repeat split; auto; lia. }
  destruct (action args =? "claimWinnings")%string.
  { eapply triple_weaken; [apply executeClaimWinnings_summary|]. cbv beta.
    intros o n evs (H1 & H2 & H3). unfold footprint. repeat split; auto; lia. }
  step. count_path.
Qed.

(** A run that ended before the action: status 1, nothing submitted. *)
Lemma summary_early (w : world node) (argv : list string) (evs : list event) :
  sends evs = O -> summary w argv (Exit 1) (chain w) evs.
Proof. intros H. unfold summary, footprint. rewrite H. repeat split; auto; lia. Qed.

Ltac tally :=
  rewrite ?sends_app;
  repeat match goal with
         | H : forallb preflight ?e = true |- _ => rewrite (preflight_sends e H)
         | H : forallb console ?e = true |- _ =>
             rewrite (preflight_sends e (console_preflight e H))
         | |- context [sends [?e]] => change (sends [e]) with O
         | |- context [sends []] => change (sends []) with O
         end.

Lemma main_summary (cfg : config) (argv : list string) (w : world node) :
  triple (main rpc sys cfg argv) w (summary w argv).
Proof.
  unfold main. step. step.
  eapply triple_weaken; [apply parseArguments_head|]. cbv beta.
  intros o n evs0 (-> & H0 & [[-> _] | (args & rest & -> & -> & Hargs & _)]).
  { apply summary_early. now tally. }
  cbn [chain trace app].
  step. eapply triple_weaken; [apply readABI_spec|]. cbv beta. cbn [chain trace].
  intros o n evs1 (-> & H1 & [-> | (abi & ->)]); [apply summary_early; now tally|].
  step. eapply triple_weaken; [apply readERC20ABI_spec|]. cbv beta. cbn [chain trace].
  intros o n evs2 (-> & H2 & [-> | (erc20Abi & ->)]); [apply summary_early; now tally|].
  step. eapply triple_weaken; [apply setupEthers_spec|]. cbv beta. cbn [chain trace].
  intros o n evs3 (-> & H3 & [-> | (user & -> & Huser)]); [apply summary_early; now tally|].
  cbn [signer].
  step. eapply triple_weaken; [apply createContract_spec|]. cbv beta. cbn [chain trace].
  intros o n evs4 (-> & H4 & [-> | ->]); [apply summary_early; now tally|].
  step. eapply triple_weaken; [apply createContract_spec|]. cbv beta. cbn [chain trace].
  intros o n evs5 (-> & H5 & [-> | ->]); [apply summary_early; now tally|].
  step. step. step. step. step.
  eapply triple_weaken; [apply getTokenInfo_spec|]. cbv beta. cbn [chain trace].
  intros o n evs6 (-> & H6 & [(message & ->) | (tokenInfo & ->)]).
  { steps. apply summary_early. now tally. }
  steps.
  assert (Hshares : forall (then_log : bool) (w' : world node),
    triple (if truthy (marketId args)
            then bind (getUserShares rpc (mkContract (CONTRACT_ADDRESS cfg) (mkWallet user))
                         tokenInfo (the (marketId args)) (address (mkWallet user)))
                      (fun _ => if then_log then log ("---" ++ nl) else ret tt)
            else ret tt) w'
      (fun o n evs => o = Return tt /\ n = chain w' /\ forallb preflight evs = true)).
  { intros then_log w'. destruct (truthy (marketId args)); [|steps; auto].
    step. eapply triple_weaken; [apply getUserShares_spec|]. cbv beta.
    intros o n evs (-> & H & (position & ->)). destruct then_log; steps; quiet. }
  eapply triple_weaken; [apply (Hshares true)|]. cbv beta. cbn [chain trace].
  intros o n evs7 (-> & -> & H7).
  step. eapply triple_weaken; [apply dispatch_summary|]. cbv beta. cbn [chain trace].
  intros o n evs8 (Hexit & (Hle & Horigin) & Hone).
  assert (Hfoot : forall (l : list event) (n' : node),
    sends l = sends evs8 -> (sends evs8 = O -> n' = chain w) ->
    footprint 2 (chain w) n' l
    /\ (forall a, hd_error (skipn 2 argv) = Some a -> a <> "buy"%string ->
          (sends l <= 1)%nat)).
  { intros l n' El Hn'. unfold footprint. rewrite El.
    split; [split; [exact Hle|exact Hn']|].
    intros a Ha Hnb. rewrite Hargs in Ha. injection Ha as <-. auto. }
  destruct o as [receipt|message|code]; [| |exfalso; now apply (Hexit code)].
  2:{ steps. unfold summary.
      split; [now right|].
      apply Hfoot; [tally; lia|exact Horigin]. }
  step. step. step.
  eapply triple_weaken; [apply (Hshares false)|]. cbv beta. cbn [chain trace].
  intros o n' evs9 (-> & -> & H9).
  steps. unfold summary. split.
  - left. split; [reflexivity|].
    repeat first [apply suffix_one | apply suffix_app].
  - apply Hfoot; [tally; lia|exact Horigin].
Qed.

End Summary.

Section Runs.

Context {node : Type}.
Variable rpc : Rpc.api node.
Variable sys : system.

Local Open Scope list_scope.

Lemma program_summary (argv : list string) (w : world node) :
  triple (program rpc sys argv) w (summary w argv).
Proof.
  unfold program. step.
  eapply triple_weaken; [apply configuration_spec|]. cbv beta.
  intros o n evs (-> & Hcon & [-> | (cfg & -> & -> & _)]).
  { apply summary_early. now apply preflight_sends, console_preflight. }
  eapply triple_weaken; [apply main_summary|]. cbv beta. cbn [chain trace app].
  auto.
Qed.

(** X13. Every run ends in one of two ways: [main] returns, the success
    line being the last event, and the exit status is 0; or the process
    exits with status 1.  No error escapes [main] and no other status
    occurs. *)
Theorem exit_status_is_zero_or_one (argv : list string) (w : world node) :
  exists o n evs,
    program rpc sys argv w = (o, World n (trace w ++ evs))
    /\ ((o = Return tt /\ exit_code o = 0
         /\ last evs (Stdout "") = Stdout (nl ++ "Action completed successfully! ✅"))
        \/ (o = Exit 1 /\ exit_code o = 1)).
Proof.
  destruct (program_summary argv w) as (o & n & evs & E & [(-> & pre & ->) | ->] & _).
  - exists (Return tt), n, (pre ++ [Stdout (nl ++ "Action completed successfully! ✅")]).
    split; [exact E|]. left. split; [reflexivity|]. split; [reflexivity|apply last_last].
  - exists (Exit 1), n, evs. split; [exact E|]. right. split; reflexivity.
Qed.

(** X12. A run submits at most two transactions, and at most one when
    the action is not [buy]; a run that submits none leaves the ledger
    in the state it found. *)
Theorem at_most_two_submissions (argv : list string) (w : world node) :
  exists o n evs,
    program rpc sys argv w = (o, World n (trace w ++ evs))
    /\ (sends evs <= 2)%nat
    /\ (forall a, hd_error (skipn 2 argv) = Some a -> a <> "buy"%string -> (sends evs <= 1)%nat)
    /\ (sends evs = O -> n = chain w).
Proof.
  destruct (program_summary argv w) as (o & n & evs & E & _ & (Hle & Horigin) & Hone).
  exists o, n, evs. auto.
Qed.

(** X14. Every transaction a run submits has a gas limit that is not
    below the estimate obtained for its call, when that estimate is not
    negative: the limit lies between the estimate and six fifths of it,
    and strictly above the estimate from 5 gas units on. *)
Theorem gas_limit_covers_the_estimate (argv : list string) (w : world node) :
  exists evs,
    trace (snd (program rpc sys argv w)) = trace w ++ evs
    /\ forall c o answer,
         In (Send c o answer) evs ->
         exists g,
           In (EstimateGas c (Ok g)) evs
           /\ (0 <= g ->
               g <= Rpc.gasLimit o /\ 5 * Rpc.gasLimit o <= 6 * g
               /\ (5 <= g -> g < Rpc.gasLimit o)).
Proof.
  destruct (triple_run _ _ _ (program_planned rpc sys argv w)) as (evs & E & H).
  exists evs. split; [exact E|].
  intros c o answer Hin. apply in_split in Hin. destruct Hin as (pre & post & Eevs).
  destruct (planned_gas_planned bufferedGas evs H pre c o answer post Eevs) as (g & Hg & Hl).
  exists g. split; [rewrite Eevs; apply in_or_app; now left|].
  intros Hpos. rewrite Hl, (bufferedGas_div g Hpos).
  pose proof (Z.div_mod (g * 12) 10 ltac:(lia)) as D.
  pose proof (Z.mod_pos_bound (g * 12) 10 ltac:(lia)) as B.
  repeat split; intros; lia.
Qed.


End Runs.

(** ** Failures before the first request *)

(** A run in which the answer of one local operation is known. *)
Ltac run_knowing H := repeat (step || (rewrite H; cbn [outcome_of]) || answer).

Section Startup.

Context {node : Type}.
Variable rpc : Rpc.api node.
Variable sys : system.

Local Open Scope list_scope.

Lemma console_offline (evs : list event) :
  forallb console evs = true -> forallb offline evs = true.
Proof.
  induction evs as [|e evs IH]; simpl; auto.
  intros H. apply andb_prop in H. destruct H as [He H].
  rewrite (IH H). destruct e; try discriminate He; reflexivity.
Qed.

Lemma console_files_only (evs : list event) :
  forallb console evs = true -> forallb files_only evs = true.
Proof.
  induction evs as [|e evs IH]; simpl; auto.
  intros H. apply andb_prop in H. destruct H as [He H].
  rewrite (IH H). destruct e; try discriminate He; reflexivity.
Qed.

(** X6. With a private key that the wallet constructor rejects, the run
    ends with status 1 inside [setupEthers] at the latest: whatever the
    rest of the command line, it consists of console output, file reads
    and the construction of the provider, and no request reaches the
    node. *)
Theorem rejected_key_sends_no_request
    (a0 a1 act key : string) (rest : list string) (w : world node) (message : string) :
  newWallet sys key = Err message ->
  exists evs,
    program rpc sys (a0 :: a1 :: act :: key :: rest) w
    = (Exit 1, World (chain w) (trace w ++ evs))
    /\ forallb offline evs = true.
Proof.
  intros Hkey.
  enough (T : triple (program rpc sys (a0 :: a1 :: act :: key :: rest)) w (fun o n evs =>
                o = Exit 1 /\ n = chain w /\ forallb offline evs = true)).
  { destruct T as (o & n & evs & E & -> & -> & H). eauto. }
  unfold program. step.
  eapply triple_weaken; [apply configuration_spec|]. cbv beta.
  intros o n evs (-> & Hcon & [-> | (cfg & -> & -> & _)]); [auto using console_offline|].
  unfold main. step. step.
  eapply triple_weaken; [apply parseArguments_head|]. cbv beta.
  intros o n evs0 (-> & H0 & [[-> _] | (args & rest' & -> & -> & Hargs & _)]);
    [auto using console_offline|].
  cbn [skipn] in Hargs. injection Hargs as _ Hk _. rewrite <- Hk.
  unfold readABI, readERC20ABI, setupEthers. cbn [chain trace app].
  run_knowing Hkey; repeat split; reflexivity.
Qed.

(** X7. When one of the two ABI documents cannot be loaded, the run
    ends with status 1 inside the loader at the latest, with nothing
    but console output and file reads behind it: no provider, no wallet,
    no contract, no request.  The market ABI is read first. *)
Theorem unreadable_abi_stops_the_run (argv : list string) (w : world node) (message : string) :
  (readJson sys "../contracts/PredictionMarketV3_4.json" = Err message ->
     exists evs,
       program rpc sys argv w = (Exit 1, World (chain w) (trace w ++ evs))
       /\ forallb files_only evs = true
       /\ ~ In (ReadFile "../contracts/ERC20.json") evs)
  /\ (readJson sys "../contracts/ERC20.json" = Err message ->
      exists evs,
        program rpc sys argv w = (Exit 1, World (chain w) (trace w ++ evs))
        /\ forallb files_only evs = true).
Proof.
  split; intros Hjson.
  - enough (T : triple (program rpc sys argv) w (fun o n evs =>
                  o = Exit 1 /\ n = chain w /\ forallb files_only evs = true
                  /\ ~ In (ReadFile "../contracts/ERC20.json") evs)).
    { destruct T as (o & n & evs & E & -> & -> & H). eauto. }
    assert (Hnot : forall evs : list event, forallb console evs = true ->
              ~ In (ReadFile "../contracts/ERC20.json") evs).
    { intros evs H Hin. rewrite forallb_forall in H. specialize (H _ Hin). discriminate H. }
    unfold program. step.
    eapply triple_weaken; [apply configuration_spec|]. cbv beta.
    intros o n evs (-> & Hcon & [-> | (cfg & -> & -> & _)]);
      [auto using console_files_only|].
    unfold main. step. step.
    eapply triple_weaken; [apply parseArguments_head|]. cbv beta.
    intros o n evs0 (-> & H0 & [[-> _] | (args & rest' & -> & -> & Hargs & _)]);
      [auto 6 using console_files_only|].
    unfold readABI. cbn [chain trace app].
    run_knowing Hjson. repeat split; try reflexivity.
    cbn [app In]. intros [H|[H|[]]]; discriminate H.
  - enough (T : triple (program rpc sys argv) w (fun o n evs =>
                  o = Exit 1 /\ n = chain w /\ forallb files_only evs = true)).
    { destruct T as (o & n & evs & E & -> & -> & H). eauto. }
    unfold program. step.
    eapply triple_weaken; [apply configuration_spec|]. cbv beta.
    intros o n evs (-> & Hcon & [-> | (cfg & -> & -> & _)]);
      [auto using console_files_only|].
    unfold main. step. step.
    eapply triple_weaken; [apply parseArguments_head|]. cbv beta.
    intros o n evs0 (-> & H0 & [[-> _] | (args & rest' & -> & -> & Hargs & _)]);
      [auto using console_files_only|].
    unfold readABI, readERC20ABI. cbn [chain trace app].
    run_knowing Hjson; repeat split; reflexivity.
Qed.

End Startup.


Lemma rejected_key_sends_no_request_witness :
  exists evs,
    program (Stub.node 95000 (Ok (0, [])))
      (Fixture.process (fun _ => Ok (Some [])) (Err "invalid private key"))
      ["node"; "index.js"; "buy"; "nokey"; "1"; "0"; "10"] (Stub.start 100 0)
    = (Exit 1, World (chain (Stub.start 100 0)) (trace (Stub.start 100 0) ++ evs)%list)
    /\ forallb offline evs = true.
Proof.
  apply (rejected_key_sends_no_request (Stub.node 95000 (Ok (0, [])))
           (Fixture.process (fun _ => Ok (Some [])) (Err "invalid private key"))
           "node" "index.js" "buy" "nokey" ["1"; "0"; "10"] (Stub.start 100 0)
           "invalid private key")%string.
  reflexivity.
Defined.

Lemma unreadable_abi_stops_the_run_witness :
  (exists evs,
     program (Stub.node 95000 (Ok (0, [])))
       (Fixture.process Fixture.no_market_abi (Ok "0xUser"))
       ["node"; "index.js"; "claimWinnings"; "0xkey"; "1"] (Stub.start 0 0)
     = (Exit 1, World (chain (Stub.start 0 0)) (trace (Stub.start 0 0) ++ evs)%list)
     /\ forallb files_only evs = true
     /\ ~ In (ReadFile "../contracts/ERC20.json") evs)
  /\ (exists evs,
        program (Stub.node 95000 (Ok (0, [])))
          (Fixture.process Fixture.no_token_abi (Ok "0xUser"))
          ["node"; "index.js"; "claimWinnings"; "0xkey"; "1"] (Stub.start 0 0)
        = (Exit 1, World (chain (Stub.start 0 0)) (trace (Stub.start 0 0) ++ evs)%list)
        /\ forallb files_only evs = true).
Proof.
  split.
  - apply (proj1 (unreadable_abi_stops_the_run (Stub.node 95000 (Ok (0, [])))
                    (Fixture.process Fixture.no_market_abi (Ok "0xUser"%string))
                    ["node"; "index.js"; "claimWinnings"; "0xkey"; "1"]%string (Stub.start 0 0)
                    "ENOENT: no such file or directory")).
    reflexivity.
  - apply (proj2 (unreadable_abi_stops_the_run (Stub.node 95000 (Ok (0, [])))
                    (Fixture.process Fixture.no_token_abi (Ok "0xUser"%string))
                    ["node"; "index.js"; "claimWinnings"; "0xkey"; "1"]%string (Stub.start 0 0)
                    "ENOENT: no such file or directory")).
    reflexivity.
Defined.

Lemma buy_follows_the_approval_witness :
  exists o n evs,
    executeBuy (Stub.node 95000 (Ok (0, []))) (Config "url" "0xMarket" "0xToken")
      Stub.market Stub.token Stub.usdc "1" "0" "10" "0" "0xUser" (Stub.start 100 5)
    = (o, World n evs)
    /\ exists overrides tx receipt,
         In (Send (callOf Stub.token "approve" [Rpc.Text "0xMarket"; Rpc.Num 10])
               overrides (Ok tx)) evs
         /\ In (Wait tx (Ok receipt)) evs.
Proof.
  destruct (buy_follows_the_approval (Stub.node 95000 (Ok (0, [])))
              (Config "url" "0xMarket" "0xToken") Stub.market Stub.token Stub.usdc
              "1" "0" "10" "0" "0xUser" (Stub.start 100 5))%string
    as (o & n & evs & E & H).
  exists o, n, evs. split; [exact E|].
  destruct (H (Ok 95000)) as (v & a & Hv & Ha & [Hle | Happroved]).
  - vm_compute in E. injection E as _ _ <-.
    cbn [In]. repeat (try (left; reflexivity); right).
  - injection Hv as <-. injection Ha as <-. lia.
  - injection Hv as <-. exact Happroved.
Defined.

Lemma at_most_two_submissions_witness :
  exists o n evs,
    program (Stub.node 95000 (Ok (0, []))) Stub.process
      ["node"; "index.js"; "sell"; "0xkey"; "1"; "0"; "5000000"] (Stub.start 0 0)
    = (o, World n (trace (Stub.start 0 0) ++ evs)%list)
    /\ (sends evs <= 1)%nat.
Proof.
  destruct (at_most_two_submissions (Stub.node 95000 (Ok (0, []))) Stub.process
              ["node"; "index.js"; "sell"; "0xkey"; "1"; "0"; "5000000"]%string (Stub.start 0 0))
    as (o & n & evs & E & _ & Hone & _).
  exists o, n, evs. split; [exact E|].
  apply (Hone "sell"%string); [reflexivity|discriminate].
Defined.

Lemma gas_limit_covers_the_estimate_witness :
  exists evs,
    trace (snd (program (Stub.node 95000 (Ok (0, []))) Stub.process
                  ["node"; "index.js"; "claimWinnings"; "0xkey"; "1"] (Stub.start 0 0)))
    = evs
    /\ exists g, In (EstimateGas (Rpc.Call "0xUser" "0xMarket" "claimWinnings" [Rpc.Text "1"])
                       (Ok g)) evs
                 /\ g < 114000.
Proof.
  destruct (gas_limit_covers_the_estimate (Stub.node 95000 (Ok (0, []))) Stub.process
              ["node"; "index.js"; "claimWinnings"; "0xkey"; "1"]%string (Stub.start 0 0))
    as (evs & E & H).
  exists evs. split; [exact E|].
  destruct (H (Rpc.Call "0xUser" "0xMarket" "claimWinnings" [Rpc.Text "1"])
              (Rpc.Overrides 114000 (Some 500000000)) (Ok (Rpc.Response "0xabcdef")))
    as (g & Hg & Hbounds).
  - vm_compute in E. rewrite <- E. cbn [In]. repeat (try (left; reflexivity); right).
  - exists g. split; [exact Hg|].
    assert (Eg : g = 95000).
    { vm_compute in E. rewrite <- E in Hg. cbn [In] in Hg.
      repeat (destruct Hg as [Hg|Hg]; [try discriminate Hg|]); [|destruct Hg].
      injection Hg as <-. reflexivity. }
    destruct Hbounds as (_ & _ & Hstrict); [lia|]. cbn [Rpc.gasLimit] in Hstrict. lia.
Defined.
